(** * eth-block-events: event bus, log decoder, listener and batch transformer

    A shallow embedding of the Python sources

    - [etl_python/models/events.py]
    - [etl_python/services/event_bus.py]
    - [etl_python/services/event_listener.py]
    - [transform_data.py]

    together with the properties of the specification that can be stated
    about them.  Python exceptions are an explicit [result]; the mutable
    state of the process (handler side effects, the error log, the node
    behind the web3 client) is threaded through a small state-and-error
    monad. *)

From Stdlib Require Import ZArith NArith List Ascii String Bool Lia Floats.
From Stdlib.Strings Require Byte.
From stdpp Require Import base tactics option list gmap strings sorting.

Local Open Scope string_scope.
Local Open Scope list_scope.
Local Open Scope Z_scope.

(* ===================================================================== *)
(** * Python values and built-ins used by the sources                    *)
(* ===================================================================== *)

Module Py.

(** The exception classes the sources can raise or catch.  All of them
    derive from [Exception], which is what every [except Exception]
    clause of the repository catches.  [Web3Error] stands for any error
    raised behind the web3 client or by a handler body. *)
Inductive exn : Type :=
| IndexError
| ValueError
| TypeError
| ZeroDivisionError
| OverflowError
| Web3Error (msg : string).

Inductive result (A : Type) : Type :=
| Ok (a : A)
| Raise (e : exn).
Arguments Ok {A} a.
Arguments Raise {A} e.

Definition rbind {A B} (r : result A) (k : A -> result B) : result B :=
  match r with
  | Ok a => k a
  | Raise e => Raise e
  end.

Definition is_ok {A} (r : result A) : bool :=
  match r with Ok _ => true | Raise _ => false end.

#[global] Instance result_fmap : FMap result :=
  fun A B f r => match r with Ok a => Ok (f a) | Raise e => Raise e end.

(** ** [bytes] *)

Definition bytes := list Byte.byte.

Definition byte_val (b : Byte.byte) : Z := Z.of_N (Byte.to_N b).

(** [b[-n:]]: the last [n] items, the whole sequence when it is shorter. *)
Definition last_n {A} (n : nat) (l : list A) : list A :=
  drop (length l - n) l.

(** [l[i]], raising [IndexError] out of range. *)
Definition index {A} (l : list A) (i : nat) : result A :=
  match l !! i with
  | Some x => Ok x
  | None => Raise IndexError
  end.

(** ** [str] *)

Fixpoint str_drop (n : nat) (s : string) : string :=
  match n, s with
  | O, _ => s
  | S _, EmptyString => EmptyString
  | S k, String _ r => str_drop k r
  end.

Fixpoint str_take (n : nat) (s : string) : string :=
  match n, s with
  | O, _ => EmptyString
  | S _, EmptyString => EmptyString
  | S k, String c r => String c (str_take k r)
  end.

(** [s[-n:]] and [s[:n]] *)
Definition str_last_n (n : nat) (s : string) : string :=
  str_drop (String.length s - n) s.

(** [s.startswith('0x')] *)
Definition startswith_0x (s : string) : bool :=
  match s with
  | String "0" (String "x" _) => true
  | _ => false
  end.

(** ** Hexadecimal text *)

Definition hexdigit (n : N) : ascii :=
  match n with
  | 0 => "0" | 1 => "1" | 2 => "2" | 3 => "3" | 4 => "4" | 5 => "5"
  | 6 => "6" | 7 => "7" | 8 => "8" | 9 => "9" | 10 => "a" | 11 => "b"
  | 12 => "c" | 13 => "d" | 14 => "e" | _ => "f"
  end%N%char.

(** [bytes.hex()]: two lower-case digits per byte, no prefix. *)
Fixpoint bytes_hex (bs : bytes) : string :=
  match bs with
  | [] => EmptyString
  | b :: r =>
      let n := Byte.to_N b in
      String (hexdigit (n / 16)) (String (hexdigit (n mod 16)) (bytes_hex r))
  end.

(** [HexBytes.hex()] as in the [hexbytes] release that web3 v6 pins:
    the digits of [bytes.hex()] behind a ["0x"] prefix.  The listener
    compares it with the ["0x..."] constants of [EventSignatures]. *)
Definition hexbytes_hex (bs : bytes) : string := "0x" +:+ bytes_hex bs.

Definition hex_value (c : ascii) : option Z :=
  let n := Z.of_N (N_of_ascii c) in
  if ((48 <=? n) && (n <=? 57))%Z then Some (n - 48)
  else if ((97 <=? n) && (n <=? 102))%Z then Some (n - 87)
  else if ((65 <=? n) && (n <=? 70))%Z then Some (n - 55)
  else None.

Fixpoint int16_digits (acc : Z) (s : string) : option Z :=
  match s with
  | EmptyString => Some acc
  | String c r =>
      match hex_value c with
      | Some d => int16_digits (16 * acc + d) r
      | None => None
      end
  end.

Definition strip_0x (s : string) : string :=
  match s with
  | String "0" (String "x" r) => r
  | String "0" (String "X" r) => r
  | _ => s
  end.

(** [int(s, 16)] on the texts the sources hand to it: an optional
    ["0x"] prefix followed by at least one hexadecimal digit; anything
    else is a [ValueError].  (Signs, surrounding blanks and digit
    separators, which [int] also accepts, do not occur in hex-encoded
    log fields and are rejected here.) *)
Definition int16 (s : string) : result Z :=
  match strip_0x s with
  | EmptyString => Raise ValueError
  | body =>
      match int16_digits 0 body with
      | Some v => Ok v
      | None => Raise ValueError
      end
  end.

End Py.
Export Py.

Notation "x <- r ;; k" := (rbind r (fun x => k))
  (at level 60, r at next level, right associativity, only parsing).

(* ===================================================================== *)
(** * [decimal.Decimal] under the default context                        *)
(* ===================================================================== *)

Module Decimal.

(** A finite non-negative decimal: [coeff * 10 ^ exp].  The sources only
    build decimals from non-negative integers and add them. *)
Record t : Type := mk { coeff : Z; exp : Z }.

(** [Decimal(n)] and [Decimal(str(n))] for an integer [n]: exact. *)
Definition of_int (n : Z) : t := mk n 0.

(** [Decimal('0')] and [Decimal()] *)
Definition zero : t := of_int 0.

(** The number a decimal with a non-negative exponent denotes. *)
Definition value (d : t) : Z := coeff d * 10 ^ exp d.

(** [getcontext().prec], never changed by the sources. *)
Definition prec : Z := 28.

Fixpoint digits_aux (fuel : nat) (n : Z) : Z :=
  match fuel with
  | O => 1
  | S f => if n <? 10 then 1 else 1 + digits_aux f (n / 10)
  end.

(** Number of decimal digits of the coefficient ([1] for zero). *)
Definition ndigits (n : Z) : Z := digits_aux (Z.to_nat (Z.log2 n)) n.

(** [ROUND_HALF_EVEN] of [c / 10 ^ shift]. *)
Definition round_half_even (c shift : Z) : Z :=
  let p := 10 ^ shift in
  let q := c / p in
  let r := c mod p in
  if 2 * r <? p then q
  else if p <? 2 * r then q + 1
  else if Z.even q then q else q + 1.

(** [Decimal._fix]: round the result of an operation to [prec]
    significant digits. *)
Definition fix_ (d : t) : t :=
  let n := ndigits (coeff d) in
  if n <=? prec then d
  else
    let shift := n - prec in
    let c := round_half_even (coeff d) shift in
    if c =? 10 ^ prec
    then mk (10 ^ (prec - 1)) (exp d + shift + 1)
    else mk c (exp d + shift).

(** [x + y]: the exact sum at the smaller exponent, then [_fix]. *)
Definition add (x y : t) : t :=
  let e := Z.min (exp x) (exp y) in
  fix_ (mk (coeff x * 10 ^ (exp x - e) + coeff y * 10 ^ (exp y - e)) e).

(** [x < y] compares the denoted numbers; comparison never rounds. *)
Definition ltb (x y : t) : bool := value x <? value y.

End Decimal.

(* ===================================================================== *)
(** * [etl_python/models/events.py]                                      *)
(* ===================================================================== *)

(** [datetime] values are only carried around by the decoders; they are
    represented by the POSIX time they were built from. *)
Definition datetime : Type := Z.

(** A [LogReceipt] as web3 returns it: topics and payload are [HexBytes]. *)
Module LogReceipt.
Record t : Type := mk {
  address : string;
  topics : list bytes;
  data : bytes;
  blockNumber : Z;
  transactionHash : bytes;
  logIndex : Z
}.
End LogReceipt.

Module EthereumEvent.
Record t : Type := mk {
  event_name : string;
  contract_address : string;
  block_number : Z;
  transaction_hash : string;
  log_index : Z;
  timestamp : datetime;
  raw_data : LogReceipt.t
}.
End EthereumEvent.

Module ERC20TransferEvent.
Record t : Type := mk {
  base : EthereumEvent.t;
  from_address : string;
  to_address : string;
  value : Decimal.t;
  token_symbol : option string;
  token_decimals : option Z
}.
End ERC20TransferEvent.

Module UniswapSwapEvent.
Record t : Type := mk {
  base : EthereumEvent.t;
  pool_id : string;
  sender : string;
  amount_0 : Z;
  amount_1 : Z;
  sqrt_price_x96 : Z;
  liquidity : Z;
  tick : Z
}.
Definition TOPIC_0 : string :=
  "0x0d3648bd0f6ba80134a33ba9275ac585d9d315f0ad8355cddefde31afa28d0e9".
End UniswapSwapEvent.

Module UniswapInitializeEvent.
Record t : Type := mk {
  base : EthereumEvent.t;
  pool_id : string;
  currency0 : string;
  currency1 : string;
  fee : Z;
  tick_spacing : Z;
  hooks : string
}.
Definition TOPIC_0 : string :=
  "0x98636036cb66a9c19a37435efc1e90142190214e8abeb821bdda3f2990dd4c95".
End UniswapInitializeEvent.

Module UniswapModifyLiquidityEvent.
Record t : Type := mk {
  base : EthereumEvent.t;
  pool_id : string;
  sender : string;
  tick_lower : Z;
  tick_upper : Z;
  liquidity_delta : Z
}.
Definition TOPIC_0 : string :=
  "0x3932abb5e2165f7c78ddef6502e29c06225afc2b9a4e51ae1d80f2ed7f6ac1a0".
End UniswapModifyLiquidityEvent.

Module BlockEvent.
Record t : Type := mk {
  block_number : Z;
  block_hash : string;
  parent_hash : string;
  timestamp : datetime;
  transaction_count : Z;
  gas_used : Z;
  gas_limit : Z
}.
End BlockEvent.

Module EventSignatures.
Definition ERC20_TRANSFER : string :=
  "0xddf252ad1be2c89b69c2b068fc378daa952ba7f163c4a11628f55a4df523b3ef".
Definition ERC20_APPROVAL : string :=
  "0x8c5be1e5ebec7d5bd14f71427d1e84f3dd0314c0f7b2291e5b200ac8c7c3b925".
Definition UNISWAP_SWAP : string := UniswapSwapEvent.TOPIC_0.
Definition UNISWAP_INITIALIZE : string := UniswapInitializeEvent.TOPIC_0.
Definition UNISWAP_MODIFY_LIQUIDITY : string :=
  UniswapModifyLiquidityEvent.TOPIC_0.
End EventSignatures.

(** The event classes of the module; every class but [BlockEvent] and
    the base class itself derives from [EthereumEvent]. *)
Inductive event_class : Type :=
| cls_EthereumEvent
| cls_ERC20TransferEvent
| cls_UniswapSwapEvent
| cls_UniswapInitializeEvent
| cls_UniswapModifyLiquidityEvent
| cls_BlockEvent.

#[global] Instance event_class_eq_dec : EqDecision event_class.
Proof. solve_decision. Defined.

Definition event_class_code (c : event_class) : nat :=
  match c with
  | cls_EthereumEvent => 0
  | cls_ERC20TransferEvent => 1
  | cls_UniswapSwapEvent => 2
  | cls_UniswapInitializeEvent => 3
  | cls_UniswapModifyLiquidityEvent => 4
  | cls_BlockEvent => 5
  end%nat.

Definition event_class_decode (n : nat) : option event_class :=
  match n with
  | 0 => Some cls_EthereumEvent
  | 1 => Some cls_ERC20TransferEvent
  | 2 => Some cls_UniswapSwapEvent
  | 3 => Some cls_UniswapInitializeEvent
  | 4 => Some cls_UniswapModifyLiquidityEvent
  | 5 => Some cls_BlockEvent
  | _ => None
  end%nat.

#[global] Instance event_class_countable : Countable event_class.
Proof.
  apply (inj_countable event_class_code event_class_decode).
  by intros [].
Defined.

(** [issubclass(c, d)] *)
Definition issubclass (c d : event_class) : bool :=
  bool_decide (c = d) ||
  match c, d with
  | (cls_ERC20TransferEvent | cls_UniswapSwapEvent
     | cls_UniswapInitializeEvent | cls_UniswapModifyLiquidityEvent),
    cls_EthereumEvent => true
  | _, _ => false
  end.

(** An object that can be posted on the bus. *)
Inductive event : Type :=
| Generic (e : EthereumEvent.t)
| Transfer (e : ERC20TransferEvent.t)
| Swap (e : UniswapSwapEvent.t)
| Initialize (e : UniswapInitializeEvent.t)
| ModifyLiquidity (e : UniswapModifyLiquidityEvent.t)
| Block (e : BlockEvent.t).

(** [type(event)] *)
Definition type_of (e : event) : event_class :=
  match e with
  | Generic _ => cls_EthereumEvent
  | Transfer _ => cls_ERC20TransferEvent
  | Swap _ => cls_UniswapSwapEvent
  | Initialize _ => cls_UniswapInitializeEvent
  | ModifyLiquidity _ => cls_UniswapModifyLiquidityEvent
  | Block _ => cls_BlockEvent
  end.

(* ===================================================================== *)
(** * Subscribers, handlers and the state of the running process         *)
(* ===================================================================== *)

(** A method tagged by the [subscribe] decorator: its attribute name, the
    [event_type] stored in [_event_subscriber_info], and whether
    [iscoroutinefunction] holds for it. *)
Record method : Type := mk_method {
  method_name : string;
  event_type : event_class;
  iscoroutinefunction : bool
}.

(** A subscriber object: its identity, and its tagged methods in the
    order [dir] lists them.  Objects do not change while registered, and
    attribute names of one object denote distinct functions. *)
Record subscriber : Type := mk_subscriber {
  object_id : nat;
  class_name : string;
  tagged_methods : list method
}.

(** What [getattr(subscriber, method_name)] returns.  Python compares
    bound methods by [__self__] and [__func__], which is what [in] and
    [list.remove] use. *)
Record bound_method : Type := mk_bound {
  im_self : subscriber;
  im_func : method
}.

#[global] Instance method_eq_dec : EqDecision method.
Proof. solve_decision. Defined.
#[global] Instance subscriber_eq_dec : EqDecision subscriber.
Proof. solve_decision. Defined.
#[global] Instance bound_method_eq_dec : EqDecision bound_method.
Proof. solve_decision. Defined.

(** An error-level record of the [logging] module. *)
Record log_record : Type := mk_log {
  message : string;
  subject : option bound_method;
  cause : exn
}.

Module Runtime.
Section WithWorld.
(** Everything handler bodies and the node can read or change. *)
Context {World : Type}.

(** A coroutine object: the code between two suspension points is a
    segment; after the last one the body returns or raises. *)
Record coroutine : Type := mk_coroutine {
  segments : list (World -> World);
  final : World -> result unit * World
}.

Inductive task_state : Type :=
| Pending (c : coroutine)
| Done (r : result unit).

(** An [asyncio.Task] wrapping the coroutine of one handler. *)
Record task : Type := mk_task {
  task_handler : bound_method;
  state : task_state
}.

(** The state of the process.  [calls] and [finished] are ghost
    fields: every call [subscriber(event)] made by the bus, in order,
    and every invocation that has returned or raised, with its
    outcome, in order of completion. *)
Record sys : Type := mk_sys {
  world : World;
  calls : list (bound_method * event);
  finished : list (bound_method * result unit);
  errors : list log_record
}.

(** Computations that read and change the process and may raise. *)
Definition M (A : Type) : Type := sys -> result A * sys.

Definition ret {A} (a : A) : M A := fun s => (Ok a, s).

Definition bind {A B} (c : M A) (k : A -> M B) : M B :=
  fun s =>
    match c s with
    | (Ok a, s') => k a s'
    | (Raise e, s') => (Raise e, s')
    end.

(** [try: c except Exception as e: h e]; what [c] did before raising
    stays done. *)
Definition try_except {A} (c : M A) (h : exn -> M A) : M A :=
  fun s =>
    match c s with
    | (Ok a, s') => (Ok a, s')
    | (Raise e, s') => h e s'
    end.

(** [for x in l: body x] *)
Fixpoint for_each {A} (l : list A) (body : A -> M unit) : M unit :=
  match l with
  | [] => ret tt
  | x :: r => bind (body x) (fun _ => for_each r body)
  end.

(** A pure computation that may raise. *)
Definition lift_result {A} (r : result A) : M A := fun s => (r, s).

(** An operation on the world that may raise. *)
Definition lift_world {A} (op : World -> result A * World) : M A :=
  fun s =>
    let '(r, w) := op (world s) in
    (r, mk_sys w (calls s) (finished s) (errors s)).

(** [logger.error(...)] *)
Definition log_error (msg : string) (h : option bound_method) (e : exn)
  : M unit :=
  fun s =>
    (Ok tt,
     mk_sys (world s) (calls s) (finished s)
            (errors s ++ [mk_log msg h e])).

Definition record_call (h : bound_method) (ev : event) : M unit :=
  fun s =>
    (Ok tt, mk_sys (world s) (calls s ++ [(h, ev)]) (finished s) (errors s)).

Definition record_finished (h : bound_method) (r : result unit) : sys -> sys :=
  fun s => mk_sys (world s) (calls s) (finished s ++ [(h, r)]) (errors s).

End WithWorld.
Arguments coroutine : clear implicits.
Arguments task_state : clear implicits.
Arguments task : clear implicits.
Arguments sys : clear implicits.
Arguments M : clear implicits.
End Runtime.
Export Runtime.

Notation "x <-- c ;; k" := (bind c (fun x => k))
  (at level 60, c at next level, right associativity, only parsing).
Notation "c ;;; k" := (bind c (fun _ => k))
  (at level 60, right associativity, only parsing).

(** What calling a handler does: a plain method runs to completion; a
    coroutine method returns a coroutine object without running it.  A
    handler fails by raising an exception of class [Exception]; exits
    of the interpreter ([KeyboardInterrupt], [SystemExit]), which no
    clause of the sources catches, are not handler failures. *)
Record handler_semantics (World : Type) : Type := mk_semantics {
  call_sync : bound_method -> event -> World -> result unit * World;
  call_async : bound_method -> event -> World -> result (coroutine World) * World
}.
Arguments call_sync {World} _ _ _ _.
Arguments call_async {World} _ _ _ _.

(* ===================================================================== *)
(** * [etl_python/services/event_bus.py]                                 *)
(* ===================================================================== *)

Module EventBus.

(** [_subscribers] and [_async_subscribers] are [defaultdict(list)]. *)
Record t : Type := mk {
  name : string;
  _subscribers : gmap event_class (list bound_method);
  _async_subscribers : gmap event_class (list bound_method)
}.

Definition new (name : string) : t := mk name ∅ ∅.

(** [d.get(k, [])] *)
Definition get (d : gmap event_class (list bound_method)) (k : event_class)
  : list bound_method :=
  default [] (d !! k).

(** [d[k].append(m)] on a [defaultdict(list)] *)
Definition append (k : event_class) (m : bound_method)
    (d : gmap event_class (list bound_method))
  : gmap event_class (list bound_method) :=
  <[k := get d k ++ [m]]> d.

(** [l.remove(m)]: drops the first occurrence. *)
Fixpoint remove_first (m : bound_method) (l : list bound_method)
  : list bound_method :=
  match l with
  | [] => []
  | x :: r => if decide (m = x) then r else x :: remove_first m r
  end.

(** [if m in d[k]: d[k].remove(m)]; the lookup [d[k]] creates the key. *)
Definition discard (k : event_class) (m : bound_method)
    (d : gmap event_class (list bound_method))
  : gmap event_class (list bound_method) :=
  <[k := remove_first m (get d k)]> d.

Definition register_method (s : subscriber) (bus : t) (f : method) : t :=
  let m := mk_bound s f in
  if iscoroutinefunction f
  then mk (name bus) (_subscribers bus)
          (append (event_type f) m (_async_subscribers bus))
  else mk (name bus) (append (event_type f) m (_subscribers bus))
          (_async_subscribers bus).

Definition register (s : subscriber) (bus : t) : t :=
  foldl (register_method s) bus (tagged_methods s).

Definition unregister_method (s : subscriber) (bus : t) (f : method) : t :=
  let m := mk_bound s f in
  mk (name bus)
     (discard (event_type f) m (_subscribers bus))
     (discard (event_type f) m (_async_subscribers bus)).

Definition unregister (s : subscriber) (bus : t) : t :=
  foldl (unregister_method s) bus (tagged_methods s).

Section Dispatch.
Context {World : Type} (sem : handler_semantics World).

(** [subscriber(event)] for a handler of the synchronous group. *)
Definition invoke (h : bound_method) (ev : event) : M World unit :=
  record_call h ev ;;;
  (fun s =>
     let '(r, w) := call_sync sem h ev (world s) in
     (r, record_finished h r
           (mk_sys w (calls s) (finished s) (errors s)))).

Definition post (bus : t) (ev : event) : M World unit :=
  let subscribers := get (_subscribers bus) (type_of ev) in
  for_each subscribers (fun subscriber =>
    try_except (invoke subscriber ev)
      (fun e => log_error "Error in subscriber" (Some subscriber) e)).

(** [subscriber(event)] for a handler of the concurrent group: the
    coroutine object on success; a call that raises has failed. *)
Definition invoke_async (h : bound_method) (ev : event)
  : M World (coroutine World) :=
  record_call h ev ;;;
  (fun s =>
     let '(r, w) := call_async sem h ev (world s) in
     let s' := mk_sys w (calls s) (finished s) (errors s) in
     match r with
     | Ok c => (Ok c, s')
     | Raise e => (Raise e, record_finished h (Raise e) s')
     end).

(** The loop that fills [tasks]. *)
Fixpoint create_tasks (hs : list bound_method) (ev : event)
    (tasks : list (task World)) : M World (list (task World)) :=
  match hs with
  | [] => ret tasks
  | subscriber :: r =>
      tasks' <-- try_except
                   (c <-- invoke_async subscriber ev ;;
                    ret (tasks ++ [mk_task subscriber (Pending c)]))
                   (fun e =>
                      log_error "Error creating task for async subscriber"
                                (Some subscriber) e ;;;
                      ret tasks) ;;
      create_tasks r ev tasks'
  end.

(** *** The event loop *)

Definition pending (t : task World) : bool :=
  match state t with Pending _ => true | Done _ => false end.

(** Steps a task still has to take: its segments and its return. *)
Definition work (t : task World) : nat :=
  match state t with
  | Pending c => S (length (segments c))
  | Done _ => 0
  end.

Definition total_work (ts : list (task World)) : nat :=
  sum_list (work <$> ts).

(** Run a task up to its next suspension point, or to its end. *)
Definition resume (t : task World) (s : sys World) : task World * sys World :=
  match state t with
  | Done _ => (t, s)
  | Pending c =>
      match segments c with
      | f :: rest =>
          (mk_task (task_handler t) (Pending (mk_coroutine rest (final c))),
           mk_sys (f (world s)) (calls s) (finished s) (errors s))
      | [] =>
          let '(r, w) := final c (world s) in
          (mk_task (task_handler t) (Done r),
           record_finished (task_handler t) r
             (mk_sys w (calls s) (finished s) (errors s)))
      end
  end.

(** Resume the [n]-th task that has not finished. *)
Fixpoint resume_nth (n : nat) (ts : list (task World)) (s : sys World)
  : list (task World) * sys World :=
  match ts with
  | [] => ([], s)
  | t :: r =>
      if pending t then
        match n with
        | O => let '(t', s') := resume t s in (t' :: r, s')
        | S k => let '(r', s') := resume_nth k r s in (t :: r', s')
        end
      else let '(r', s') := resume_nth n r s in (t :: r', s')
  end.

Definition count_pending (ts : list (task World)) : nat :=
  length (filter (fun t => pending t = true) ts).

(** The loop runs ready tasks one step at a time, in an order the
    sources do not control: [pick] chooses among the unfinished
    tasks at every step. *)
Fixpoint run_loop (fuel : nat) (pick : nat -> nat)
    (ts : list (task World)) (s : sys World)
  : list (task World) * sys World :=
  match fuel with
  | O => (ts, s)
  | S f =>
      match count_pending ts with
      | O => (ts, s)
      | S k =>
          let '(ts', s') := resume_nth (pick f `mod` S k)%nat ts s in
          run_loop f pick ts' s'
      end
  end.

(** [await asyncio.gather] of all the tasks with
    [return_exceptions=True]: control comes back when no task is left
    to run; the outcomes, exceptions included, are the value. *)
Definition gather (pick : nat -> nat) (tasks : list (task World))
  : M World (list (task World)) :=
  fun s =>
    let '(ts, s') := run_loop (total_work tasks) pick tasks s in
    (Ok ts, s').

Definition post_async (bus : t) (pick : nat -> nat) (ev : event)
  : M World unit :=
  let sync_subscribers := get (_subscribers bus) (type_of ev) in
  let async_subscribers := get (_async_subscribers bus) (type_of ev) in
  for_each sync_subscribers (fun subscriber =>
    try_except (invoke subscriber ev)
      (fun e => log_error "Error in sync subscriber" (Some subscriber) e)) ;;;
  match async_subscribers with
  | [] => ret tt
  | _ :: _ =>
      tasks <-- create_tasks async_subscribers ev [] ;;
      match tasks with
      | [] => ret tt
      | _ :: _ => gather pick tasks ;;; ret tt
      end
  end.

End Dispatch.
End EventBus.

(* ===================================================================== *)
(** * [config.py]: the watch list                                        *)
(* ===================================================================== *)

Module EventConfig.
Record t : Type := mk {
  name : string;
  signature : string;
  topics : list string;
  enabled : bool
}.
End EventConfig.

Module ContractConfig.
Record t : Type := mk {
  name : string;
  address : string;
  events : list EventConfig.t
}.
End ContractConfig.

(* ===================================================================== *)
(** * [etl_python/services/event_listener.py]                            *)
(* ===================================================================== *)

(** A node-side filter handle. *)
Record Filter : Type := mk_filter { filter_id : string }.

(** The web3 client, which is not part of the repository:
    [get_block_timestamp] and the filter calls talk to the node;
    [to_checksum_address] is web3's address normalisation. *)
Record node (World : Type) : Type := mk_node {
  get_block_timestamp : Z -> World -> result datetime * World;
  to_checksum_address : bytes -> result string;
  eth_filter : string -> list string -> World -> result Filter * World;
  uninstall_filter : string -> World -> result bool * World
}.
Arguments get_block_timestamp {World} _ _ _.
Arguments to_checksum_address {World} _ _.
Arguments eth_filter {World} _ _ _ _.
Arguments uninstall_filter {World} _ _ _.

Module EventListenerService.

Record filter_info : Type := mk_filter_info {
  filter : Filter;
  contract : ContractConfig.t;
  event_config : EventConfig.t
}.

(** [web3_ws] is [None] when no websocket connection exists; only its
    presence is tested. *)
Record t : Type := mk {
  contracts : list ContractConfig.t;
  event_bus : EventBus.t;
  web3_ws : bool;
  active_filters : list filter_info
}.

(** [__init__] *)
Definition init (bus : EventBus.t) (ws : bool)
    (contracts : list ContractConfig.t) : t :=
  mk contracts bus ws [].

Section Decoders.
Context {World : Type} (web3 : node World).

Definition base_event (event_name : string) (log : LogReceipt.t)
    (contract : ContractConfig.t) (timestamp : datetime)
  : EthereumEvent.t :=
  EthereumEvent.mk event_name
    (ContractConfig.address contract)
    (LogReceipt.blockNumber log)
    (hexbytes_hex (LogReceipt.transactionHash log))
    (LogReceipt.logIndex log)
    timestamp
    log.

Definition _create_erc20_transfer_event (log : LogReceipt.t)
    (contract : ContractConfig.t) (timestamp : datetime)
  : result ERC20TransferEvent.t :=
  let topics := LogReceipt.topics log in
  let data := LogReceipt.data log in
  topic1 <- index topics 1 ;;
  from_address <- to_checksum_address web3 (last_n 20 topic1) ;;
  topic2 <- index topics 2 ;;
  to_address <- to_checksum_address web3 (last_n 20 topic2) ;;
  value <- match data with
           | [] => Ok 0
           | _ :: _ => int16 (hexbytes_hex data)
           end ;;
  Ok (ERC20TransferEvent.mk
        (base_event "Transfer" log contract timestamp)
        from_address to_address
        (Decimal.of_int value)
        (Some (ContractConfig.name contract))
        None).

(** [topics[1].hex() if len(topics) > 1 else "0x"] *)
Definition pool_id_of (topics : list bytes) : string :=
  match topics !! 1%nat with
  | Some topic1 => hexbytes_hex topic1
  | None => "0x"
  end.

(** [to_checksum_address(topics[2][-20:]) if len(topics) > 2 else "0x0"] *)
Definition sender_of (topics : list bytes) : result string :=
  match topics !! 2%nat with
  | Some topic2 => to_checksum_address web3 (last_n 20 topic2)
  | None => Ok "0x0"
  end.

Definition _create_uniswap_swap_event (log : LogReceipt.t)
    (contract : ContractConfig.t) (timestamp : datetime)
  : result UniswapSwapEvent.t :=
  let topics := LogReceipt.topics log in
  let pool_id := pool_id_of topics in
  sender <- sender_of topics ;;
  Ok (UniswapSwapEvent.mk (base_event "Swap" log contract timestamp)
        pool_id sender 0 0 0 0 0).

Definition _create_uniswap_initialize_event (log : LogReceipt.t)
    (contract : ContractConfig.t) (timestamp : datetime)
  : result UniswapInitializeEvent.t :=
  let topics := LogReceipt.topics log in
  let pool_id := pool_id_of topics in
  Ok (UniswapInitializeEvent.mk
        (base_event "Initialize" log contract timestamp)
        pool_id "0x0" "0x0" 0 0 "0x0").

Definition _create_uniswap_modify_liquidity_event (log : LogReceipt.t)
    (contract : ContractConfig.t) (timestamp : datetime)
  : result UniswapModifyLiquidityEvent.t :=
  let topics := LogReceipt.topics log in
  let pool_id := pool_id_of topics in
  sender <- sender_of topics ;;
  Ok (UniswapModifyLiquidityEvent.mk
        (base_event "ModifyLiquidity" log contract timestamp)
        pool_id sender 0 0 0).

Definition _create_generic_event (log : LogReceipt.t)
    (contract : ContractConfig.t) (event_config : EventConfig.t)
    (timestamp : datetime) : EthereumEvent.t :=
  base_event (EventConfig.name event_config) log contract timestamp.

(** The dispatch on [log['topics'][0].hex()]. *)
Definition decode (log : LogReceipt.t) (contract : ContractConfig.t)
    (event_config : EventConfig.t) (timestamp : datetime) : result event :=
  topic0 <- index (LogReceipt.topics log) 0 ;;
  let event_signature := hexbytes_hex topic0 in
  if String.eqb event_signature EventSignatures.ERC20_TRANSFER then
    e <- _create_erc20_transfer_event log contract timestamp ;; Ok (Transfer e)
  else if String.eqb event_signature EventSignatures.UNISWAP_SWAP then
    e <- _create_uniswap_swap_event log contract timestamp ;; Ok (Swap e)
  else if String.eqb event_signature EventSignatures.UNISWAP_INITIALIZE then
    e <- _create_uniswap_initialize_event log contract timestamp ;;
    Ok (Initialize e)
  else if String.eqb event_signature EventSignatures.UNISWAP_MODIFY_LIQUIDITY then
    e <- _create_uniswap_modify_liquidity_event log contract timestamp ;;
    Ok (ModifyLiquidity e)
  else Ok (Generic (_create_generic_event log contract event_config timestamp)).

End Decoders.

Section Service.
Context {World : Type} (sem : handler_semantics World) (web3 : node World).

Definition _handle_log_event (self : t) (pick : nat -> nat)
    (log : LogReceipt.t) (contract : ContractConfig.t)
    (event_config : EventConfig.t) : M World unit :=
  try_except
    (timestamp <-- lift_world
                     (get_block_timestamp web3 (LogReceipt.blockNumber log)) ;;
     event <-- lift_result (decode web3 log contract event_config timestamp) ;;
     EventBus.post_async sem (event_bus self) pick event)
    (fun e => log_error "Error handling log event" None e).

(** [_create_event_filter]: a failure is logged and becomes [None]. *)
Definition _create_event_filter (contract : ContractConfig.t)
    (event_config : EventConfig.t) : M World (option Filter) :=
  try_except
    (f <-- lift_world
             (eth_filter web3 (ContractConfig.address contract)
                (EventConfig.signature event_config
                   :: EventConfig.topics event_config)) ;;
     ret (Some f))
    (fun e => log_error "Error creating event filter" None e ;;; ret None).

Fixpoint subscribe_events (self : t) (contract : ContractConfig.t)
    (events : list EventConfig.t) : M World t :=
  match events with
  | [] => ret self
  | event_config :: rest =>
      self' <-- (if EventConfig.enabled event_config then
                   try_except
                     (event_filter <-- _create_event_filter contract event_config ;;
                      match event_filter with
                      | Some f =>
                          ret (mk (contracts self) (event_bus self) (web3_ws self)
                                  (active_filters self
                                     ++ [mk_filter_info f contract event_config]))
                      | None => ret self
                      end)
                     (fun e => log_error "Failed to create filter" None e ;;;
                               ret self)
                 else ret self) ;;
      subscribe_events self' contract rest
  end.

Definition _subscribe_to_contract_events (self : t)
    (contract : ContractConfig.t) : M World t :=
  if web3_ws self
  then subscribe_events self contract (ContractConfig.events contract)
  else ret self.

(** The subscription phase of [start_listening]; the polling loop
    that follows it never returns and is not modelled. *)
Fixpoint subscribe_all (self : t) (cs : list ContractConfig.t) : M World t :=
  match cs with
  | [] => ret self
  | c :: rest =>
      self' <-- _subscribe_to_contract_events self c ;;
      subscribe_all self' rest
  end.

Definition stop_listening (self : t) : M World t :=
  for_each (active_filters self) (fun filter_info =>
    try_except
      (if web3_ws self
       then lift_world (uninstall_filter web3 (filter_id (filter filter_info))) ;;;
            ret tt
       else ret tt)
      (fun e => log_error "Error uninstalling filter" None e)) ;;;
  ret (mk (contracts self) (event_bus self) (web3_ws self) []).

End Service.
End EventListenerService.

(* ===================================================================== *)
(** * [transform_data.py]                                                *)
(* ===================================================================== *)

(** An extracted log as the JSON bundle holds it: a dictionary whose keys
    may be missing ([None] below); topics and payload are hex text. *)
Module RawEvent.
Record t : Type := mk {
  topics : option (list string);
  data : option string;
  timestamp : option Z;
  transactionHash : option string;
  blockNumber : option Z;
  logIndex : option Z;
  address : option string;
  gasUsed : option Z;
  gasPrice : option Z
}.
End RawEvent.

Module TransformedTransfer.
Record t : Type := mk {
  transaction_hash : option string;
  block_number : option Z;
  log_index : option Z;
  from_address : string;
  to_address : string;
  value_hex : string;
  value_int : Z;
  value_decimal : Decimal.t;
  contract_address : option string;
  timestamp : option string;
  gas_used : option Z;
  gas_price : option Z
}.
End TransformedTransfer.

(** [transfer_summary] while the loop of [transform_erc20_events] runs. *)
Module Running.
Record t : Type := mk {
  total_transfers : Z;
  total_volume : Decimal.t;
  unique_addresses : gset string;
  hourly_volume : gmap string Decimal.t;
  address_activity : gmap string Z
}.
Definition initial : t := mk 0 Decimal.zero ∅ ∅ ∅.
End Running.

(** [transfer_summary] as returned. *)
Module TransferSummary.
Record t : Type := mk {
  total_transfers : Z;
  total_volume : Decimal.t;
  unique_addresses : nat;
  top_transfers : list TransformedTransfer.t;
  hourly_volume : gmap string Decimal.t;
  address_activity : gmap string Z
}.
End TransferSummary.

(** The value of [transform_erc20_events]; the wall-clock
    [transformation_timestamp] it also carries is left out. *)
Module ERC20Result.
Record t : Type := mk {
  events : list TransformedTransfer.t;
  summary : TransferSummary.t
}.
End ERC20Result.

Module RawBlock.
Record t : Type := mk {
  number : option Z;
  hash : option string;
  transactions : option (list string);
  gasUsed : option Z;
  gasLimit : option Z;
  size : option Z;
  difficulty : option Z
}.
(** [{}] *)
Definition empty : t := mk None None None None None None None.
End RawBlock.

Module BlockData.
Record t : Type := mk {
  raw_block_data : option RawBlock.t;
  block_event_timestamp : option string
}.
End BlockData.

Module NetworkHealth.
Record t : Type := mk {
  utilization_status : string;
  transaction_throughput : nat;
  is_full_block : bool
}.
End NetworkHealth.

(** The transformed block; [gas_utilization_percent], the two-decimal
    rounding of the utilization for display, is left out. *)
Module TransformedBlock.
Record t : Type := mk {
  block_number : option Z;
  block_hash : option string;
  timestamp : option string;
  transaction_count : nat;
  gas_used : option Z;
  gas_limit : option Z;
  block_size : option Z;
  difficulty : option Z;
  network_health : NetworkHealth.t
}.
End TransformedBlock.

Module DataTransformer.

(** ** Floating point *)

(** An integer as an unrounded binary number. *)
Definition sf_of_int (z : Z) : spec_float :=
  match z with
  | Z0 => S754_zero false
  | Zpos p => S754_finite false p 0
  | Zneg p => S754_finite true p 0
  end.

(** [a / b] on integers: the exact quotient, correctly rounded to
    binary64 (ties to even), whatever the size of the operands;
    [ZeroDivisionError] for a zero divisor and [OverflowError] when
    the quotient is too large for a float. *)
Definition true_divide (a b : Z) : result float :=
  if b =? 0 then Raise ZeroDivisionError
  else
    match SFdiv FloatOps.prec FloatOps.emax (sf_of_int a) (sf_of_int b) with
    | S754_infinity _ => Raise OverflowError
    | quotient => Ok (SF2Prim quotient)
    end.

Definition _get_utilization_status (utilization : float) : string :=
  if PrimFloat.ltb utilization 50 then "low"
  else if PrimFloat.ltb utilization 80 then "moderate"
  else if PrimFloat.ltb utilization 95 then "high"
  else "critical".

(** [(raw_block.get('gasUsed', 0) / raw_block.get('gasLimit', 1)) * 100] *)
Definition gas_utilization (raw_block : RawBlock.t) : result float :=
  ratio <- true_divide (default 0 (RawBlock.gasUsed raw_block))
                       (default 1 (RawBlock.gasLimit raw_block)) ;;
  Ok (PrimFloat.mul ratio 100).

Definition transform_block_data (block_data : BlockData.t)
  : result TransformedBlock.t :=
  let raw_block := default RawBlock.empty (BlockData.raw_block_data block_data) in
  gas_utilization <- gas_utilization raw_block ;;
  let ntx := length (default [] (RawBlock.transactions raw_block)) in
  Ok (TransformedBlock.mk
        (RawBlock.number raw_block)
        (RawBlock.hash raw_block)
        (BlockData.block_event_timestamp block_data)
        ntx
        (RawBlock.gasUsed raw_block)
        (RawBlock.gasLimit raw_block)
        (RawBlock.size raw_block)
        (RawBlock.difficulty raw_block)
        (NetworkHealth.mk
           (_get_utilization_status gas_utilization)
           ntx
           (PrimFloat.ltb 95 gas_utilization))).

(** ** ERC20 transfers *)

Definition _is_erc20_transfer (event : RawEvent.t) : bool :=
  match default [] (RawEvent.topics event) with
  | [] => false
  | topic0 :: _ => String.eqb topic0 EventSignatures.ERC20_TRANSFER
  end.


(** ['0x' + topics[i][-40:] if len(topics) > i else '0x0'] *)
Definition address_from_topic (topics : list string) (i : nat) : string :=
  match topics !! i with
  | Some topic => "0x" +:+ str_last_n 40 topic
  | None => "0x0"
  end.

Section WithClock.
(** [datetime.fromtimestamp(ts).isoformat()], which depends on the
    time zone of the host and raises outside the supported years. *)
Variable fromtimestamp_isoformat : Z -> result string.

(** [... if event.get('timestamp') else None] *)
Definition timestamp_text (event : RawEvent.t) : result (option string) :=
  match RawEvent.timestamp event with
  | None => Ok None
  | Some ts =>
      if ts =? 0 then Ok None
      else s <- fromtimestamp_isoformat ts ;; Ok (Some s)
  end.

Definition _transform_erc20_transfer (event : RawEvent.t)
  : result TransformedTransfer.t :=
  let topics := default [] (RawEvent.topics event) in
  let data := default "0x" (RawEvent.data event) in
  let from_address := address_from_topic topics 1 in
  let to_address := address_from_topic topics 2 in
  let value_hex := if startswith_0x data then data else "0x" +:+ data in
  value_int <- (if String.eqb value_hex "0x" then Ok 0 else int16 value_hex) ;;
  timestamp <- timestamp_text event ;;
  Ok (TransformedTransfer.mk
        (RawEvent.transactionHash event)
        (RawEvent.blockNumber event)
        (RawEvent.logIndex event)
        from_address to_address
        value_hex value_int
        (Decimal.of_int value_int)
        (RawEvent.address event)
        timestamp
        (RawEvent.gasUsed event)
        (RawEvent.gasPrice event)).

(** [d[k] += 1] on a [defaultdict(int)] *)
Definition bump (k : string) (d : gmap string Z) : gmap string Z :=
  <[k := default 0 (d !! k) + 1]> d.

(** [d[k] += v] on a [defaultdict(Decimal)] *)
Definition accumulate (k : string) (v : Decimal.t)
    (d : gmap string Decimal.t) : gmap string Decimal.t :=
  <[k := Decimal.add (default Decimal.zero (d !! k)) v]> d.

(** The statements of the loop body that update the summary.
    [transformed_event['timestamp'][:13]] is a [TypeError] when the
    timestamp is [None]. *)
Definition update_summary (acc : Running.t) (te : TransformedTransfer.t)
  : result Running.t :=
  let from_address := TransformedTransfer.from_address te in
  let to_address := TransformedTransfer.to_address te in
  let value_decimal := TransformedTransfer.value_decimal te in
  let total_transfers := Running.total_transfers acc + 1 in
  let total_volume := Decimal.add (Running.total_volume acc) value_decimal in
  let unique_addresses :=
    Running.unique_addresses acc ∪ {[from_address]} ∪ {[to_address]} in
  text <- match TransformedTransfer.timestamp te with
          | Some s => Ok s
          | None => Raise TypeError
          end ;;
  let hour_key := str_take 13 text in
  let hourly_volume :=
    accumulate hour_key value_decimal (Running.hourly_volume acc) in
  let address_activity :=
    bump to_address (bump from_address (Running.address_activity acc)) in
  Ok (Running.mk total_transfers total_volume unique_addresses
        hourly_volume address_activity).

(** The [for event in events] loop. *)
Fixpoint transform_loop (events : list RawEvent.t)
    (transformed_events : list TransformedTransfer.t) (acc : Running.t)
  : result (list TransformedTransfer.t * Running.t) :=
  match events with
  | [] => Ok (transformed_events, acc)
  | event :: rest =>
      if negb (_is_erc20_transfer event)
      then transform_loop rest transformed_events acc
      else
        transformed_event <- _transform_erc20_transfer event ;;
        acc' <- update_summary acc transformed_event ;;
        transform_loop rest (transformed_events ++ [transformed_event]) acc'
  end.

(** [sorted(l, key=lambda x: x['value_decimal'], reverse=True)]: the
    stable sort into descending order; an element goes in front of
    the later elements that do not exceed it. *)
Fixpoint insert_desc (x : TransformedTransfer.t)
    (l : list TransformedTransfer.t) : list TransformedTransfer.t :=
  match l with
  | [] => [x]
  | y :: r =>
      if Decimal.ltb (TransformedTransfer.value_decimal x)
                     (TransformedTransfer.value_decimal y)
      then y :: insert_desc x r
      else x :: y :: r
  end.

Definition sorted_desc (l : list TransformedTransfer.t)
  : list TransformedTransfer.t :=
  foldr insert_desc [] l.

Definition transform_erc20_events (events : list RawEvent.t)
  : result ERC20Result.t :=
  done <- transform_loop events [] Running.initial ;;
  let transformed_events := done.1 in
  let acc := done.2 in
  Ok (ERC20Result.mk transformed_events
        (TransferSummary.mk
           (Running.total_transfers acc)
           (Running.total_volume acc)
           (size (Running.unique_addresses acc))
           (take 10 (sorted_desc transformed_events))
           (Running.hourly_volume acc)
           (Running.address_activity acc))).

End WithClock.
End DataTransformer.

(* ===================================================================== *)
(** * The shape of an ERC20 [Transfer] log                               *)
(* ===================================================================== *)

(** The properties about decoding speak of topics that hold a 20-byte
    address left-padded to 32 bytes, and of a payload that is the
    big-endian encoding of an unsigned integer. *)
Module Abi.

Definition byte_of (z : Z) : Byte.byte :=
  default Byte.x00 (Byte.of_N (Z.to_N z)).

(** [v.to_bytes(n, 'big')] *)
Fixpoint be_encode (n : nat) (v : Z) : bytes :=
  match n with
  | O => []
  | S k => byte_of ((v / 256 ^ Z.of_nat k) mod 256) :: be_encode k v
  end.

(** [int.from_bytes(bs, 'big')] *)
Definition be_value (bs : bytes) : Z :=
  foldl (fun acc b => 256 * acc + byte_val b) 0 bs.

Definition pad20 (a : bytes) : bytes := repeat Byte.x00 12 ++ a.

End Abi.
Export Abi.


(* ===================================================================== *)
(** * Sample inputs                                                      *)
(* ===================================================================== *)

(** Concrete logs, subscribers and stubs on which the properties below
    are exercised. *)
Module Samples.

Definition transfer_sig : bytes :=
  [Byte.xdd; Byte.xf2; Byte.x52; Byte.xad; Byte.x1b; Byte.xe2; Byte.xc8;
   Byte.x9b; Byte.x69; Byte.xc2; Byte.xb0; Byte.x68; Byte.xfc; Byte.x37;
   Byte.x8d; Byte.xaa; Byte.x95; Byte.x2b; Byte.xa7; Byte.xf1; Byte.x63;
   Byte.xc4; Byte.xa1; Byte.x16; Byte.x28; Byte.xf5; Byte.x5a; Byte.x4d;
   Byte.xf5; Byte.x23; Byte.xb3; Byte.xef].

Definition swap_sig : bytes :=
  [Byte.x0d; Byte.x36; Byte.x48; Byte.xbd; Byte.x0f; Byte.x6b; Byte.xa8;
   Byte.x01; Byte.x34; Byte.xa3; Byte.x3b; Byte.xa9; Byte.x27; Byte.x5a;
   Byte.xc5; Byte.x85; Byte.xd9; Byte.xd3; Byte.x15; Byte.xf0; Byte.xad;
   Byte.x83; Byte.x55; Byte.xcd; Byte.xde; Byte.xfd; Byte.xe3; Byte.x1a;
   Byte.xfa; Byte.x28; Byte.xd0; Byte.xe9].

Definition alice : bytes :=
  [Byte.x12; Byte.x34; Byte.x56; Byte.x78; Byte.x90; Byte.x12; Byte.x34;
   Byte.x56; Byte.x78; Byte.x90; Byte.x12; Byte.x34; Byte.x56; Byte.x78;
   Byte.x90; Byte.x12; Byte.x34; Byte.x56; Byte.x78; Byte.x90].

Definition bob : bytes :=
  [Byte.xab; Byte.xcd; Byte.xef; Byte.xab; Byte.xcd; Byte.xef; Byte.xab;
   Byte.xcd; Byte.xef; Byte.xab; Byte.xcd; Byte.xef; Byte.xab; Byte.xcd;
   Byte.xef; Byte.xab; Byte.xcd; Byte.xef; Byte.xab; Byte.xcd].

(** A stand-in for web3's normalisation that keeps the digits in lower
    case; like web3 it refuses anything but 20 bytes. *)
Definition plain_checksum (bs : bytes) : result string :=
  if decide (length bs = 20%nat) then Ok (hexbytes_hex bs)
  else Raise ValueError.

(** A node that answers every call. *)
Definition quiet_node : node unit :=
  mk_node unit
    (fun _ w => (Ok 1700000000, w))
    plain_checksum
    (fun _ _ w => (Ok (mk_filter "0x1"), w))
    (fun _ w => (Ok true, w)).

(** The same node beside handlers that keep a journal. *)
Definition journal_node : node (list string) :=
  mk_node (list string)
    (fun _ w => (Ok 1700000000, w))
    plain_checksum
    (fun _ _ w => (Ok (mk_filter "0x1"), w))
    (fun _ w => (Ok true, w)).

(** A node whose filter calls all fail. *)
Definition failing_node : node unit :=
  mk_node unit
    (fun _ w => (Ok 1700000000, w))
    plain_checksum
    (fun _ _ w => (Raise (Web3Error "connection closed"), w))
    (fun _ w => (Raise (Web3Error "filter not found"), w)).

(** A clock stub: every timestamp reads as the same instant. *)
Definition frozen_clock (ts : Z) : result string := Ok "2023-11-14T22:13:20".

Definition usdc : ContractConfig.t :=
  ContractConfig.mk "USDC" "0xA0b86991c6218b36c1d19D4a2e9Eb0cE3606eB48"
    [EventConfig.mk "Transfer" EventSignatures.ERC20_TRANSFER [] true].

Definition log_with (topics : list bytes) (data : bytes) : LogReceipt.t :=
  LogReceipt.mk "0xA0b86991c6218b36c1d19D4a2e9Eb0cE3606eB48" topics data
    19000000 [Byte.x12; Byte.x34] 0.

Definition raw_with (topics : list string) (data : string) (ts : option Z)
  : RawEvent.t :=
  RawEvent.mk (Some topics) (Some data) ts (Some "0x1234") (Some 19000000)
    (Some 0) (Some "0xA0b86991c6218b36c1d19D4a2e9Eb0cE3606eB48") None None.

(** A value beyond the 64-bit range. *)
Definition big_value : Z := 2 ^ 64 + 1.

(** A subscriber with three plain and two coroutine handlers for
    transfers, one with a handler for the base class only, and one
    with coroutine handlers only. *)
Definition sinks : subscriber :=
  mk_subscriber 1 "Sinks"
    [mk_method "on_a" cls_ERC20TransferEvent false;
     mk_method "on_b" cls_ERC20TransferEvent false;
     mk_method "on_c" cls_ERC20TransferEvent false;
     mk_method "on_x" cls_ERC20TransferEvent true;
     mk_method "on_y" cls_ERC20TransferEvent true].

Definition auditor : subscriber :=
  mk_subscriber 2 "Auditor" [mk_method "on_any" cls_EthereumEvent false].

Definition watchers : subscriber :=
  mk_subscriber 3 "Watchers"
    [mk_method "on_x" cls_ERC20TransferEvent true;
     mk_method "on_y" cls_ERC20TransferEvent true].

(** Handlers that note their name in a journal; [on_b] raises when
    called, [on_x] raises at the end of its task. *)
Definition journal_semantics : handler_semantics (list string) :=
  mk_semantics (list string)
    (fun h _ w =>
       if String.eqb (method_name (im_func h)) "on_b"
       then (Raise (Web3Error "sink closed"), w)
       else (Ok tt, w ++ [method_name (im_func h)]))
    (fun h _ w =>
       (Ok (mk_coroutine
              [fun w => w ++ ["await"]]
              (fun w =>
                 if String.eqb (method_name (im_func h)) "on_x"
                 then (Raise (Web3Error "sink closed"), w)
                 else (Ok tt, w ++ [method_name (im_func h)]))),
        w)).

Definition transfer_event : event :=
  Transfer
    (ERC20TransferEvent.mk
       (EthereumEvent.mk "Transfer"
          "0xA0b86991c6218b36c1d19D4a2e9Eb0cE3606eB48" 19000000
          "0x1234567890abcdef" 0 1700000000 (log_with [] []))
       "0x1234567890123456789012345678901234567890"
       "0xabcdefabcdefabcdefabcdefabcdefabcdefabcd"
       (Decimal.of_int 1000000) None None).

Definition quiet : sys (list string) := mk_sys [] [] [] [].

(** A block that used [gas_used] of its [gas_limit]. *)
Definition block_with (gas_used gas_limit : Z) : RawBlock.t :=
  RawBlock.mk (Some 19000000) (Some "0xabc") (Some []) (Some gas_used)
    (Some gas_limit) (Some 1000) (Some 0).

(** An extracted transfer of [v] units from [alice] to [bob]. *)
Definition transfer_of (v : Z) : RawEvent.t :=
  raw_with
    (hexbytes_hex <$> [transfer_sig; pad20 alice; pad20 bob])
    (hexbytes_hex (be_encode 32 v)) (Some 1700000000).

(** An extracted [Transfer] log that lost its topics but the first. *)
Definition short_transfer : RawEvent.t :=
  raw_with [hexbytes_hex transfer_sig] (hexbytes_hex (be_encode 32 5))
    (Some 1700000000).

(** The event loop runs the unfinished tasks round-robin. *)
Definition round_robin (n : nat) : nat := n.

End Samples.

(* ===================================================================== *)
(** * What an observer of the bus can tell                               *)
(* ===================================================================== *)

Module Observe.

(** The invocations among [fin] that raised. *)
Definition raised (fin : list (bound_method * result unit))
  : list (bound_method * exn) :=
  omap (fun hr => match hr.2 with
                  | Raise e => Some (hr.1, e)
                  | Ok _ => None
                  end) fin.

(** The error records [logger.error(msg ...)] leaves for them. *)
Definition logged (msg : string) (l : list (bound_method * exn))
  : list log_record :=
  (fun he => mk_log msg (Some he.1) he.2) <$> l.

(** The handlers whose task has not finished. *)
Definition pending_handlers {World} (ts : list (task World))
  : list bound_method :=
  task_handler <$> filter (fun t => EventBus.pending t = true) ts.

(** A call of [register] or [unregister]. *)
Inductive op : Type :=
| Register (s : subscriber)
| Unregister (s : subscriber).

Definition apply_op (bus : EventBus.t) (o : op) : EventBus.t :=
  match o with
  | Register s => EventBus.register s bus
  | Unregister s => EventBus.unregister s bus
  end.

Definition run_ops (ops : list op) (bus : EventBus.t) : EventBus.t :=
  foldl apply_op bus ops.

(** The handlers of [s] that [register] files under [k]. *)
Definition handlers_for (async : bool) (k : event_class) (s : subscriber)
  : list bound_method :=
  mk_bound s <$>
    filter (fun f => event_type f = k /\ iscoroutinefunction f = async)
           (tagged_methods s).

(** What [unregister] of [s] does to the list filed under [k]: one
    [list.remove] for each method of [s] tagged with [k]. *)
Definition removals (s : subscriber) (k : event_class)
    (l : list bound_method) (ms : list method) : list bound_method :=
  foldl (fun l f =>
           if decide (event_type f = k)
           then EventBus.remove_first (mk_bound s f) l else l) l ms.

(** A discipline on the callers: [register] is only applied to a
    subscriber that is not registered at that moment.  [live] are the
    subscribers registered so far; the attribute names of an object
    are distinct, as [dir] lists them. *)
Definition track (live : list subscriber) (o : op) : list subscriber :=
  match o with
  | Register s => s :: live
  | Unregister s => filter (fun x => x <> s) live
  end.

Definition allowed (live : list subscriber) (o : op) : bool :=
  match o with
  | Register s =>
      bool_decide (s ∉ live)
      && bool_decide (NoDup (method_name <$> tagged_methods s))
  | Unregister _ => true
  end.

Fixpoint disciplined (live : list subscriber) (ops : list op) : bool :=
  match ops with
  | [] => true
  | o :: rest => allowed live o && disciplined (track live o) rest
  end.

(** The addresses a list of transformed transfers mentions. *)
Definition addresses_of (l : list TransformedTransfer.t) : list string :=
  l ≫= (fun t => [TransformedTransfer.from_address t;
                  TransformedTransfer.to_address t]).

(** The exact sum of the decoded values. *)
Definition sum_values (l : list TransformedTransfer.t) : Z :=
  foldr Z.add 0 (TransformedTransfer.value_int <$> l).

(** The number a transformed transfer is ranked by. *)
Definition rank (t : TransformedTransfer.t) : Z :=
  Decimal.value (TransformedTransfer.value_decimal t).

(** Every handler is filed under the event class it was tagged with. *)
Definition keyed (bus : EventBus.t) : Prop :=
  forall k h,
    h ∈ EventBus.get (EventBus._subscribers bus) k
    \/ h ∈ EventBus.get (EventBus._async_subscribers bus) k ->
    event_type (im_func h) = k.

(** No handler is filed twice, and every handler filed belongs to a
    subscriber that is registered at the moment. *)
Definition registry_inv (live : list subscriber) (bus : EventBus.t) : Prop :=
  forall k,
    NoDup (EventBus.get (EventBus._subscribers bus) k)
    /\ NoDup (EventBus.get (EventBus._async_subscribers bus) k)
    /\ forall h,
         h ∈ EventBus.get (EventBus._subscribers bus) k
         \/ h ∈ EventBus.get (EventBus._async_subscribers bus) k ->
         im_self h ∈ live
         /\ im_func h ∈ tagged_methods (im_self h)
         /\ event_type (im_func h) = k.

(** What the node answers when it is asked, one filter after the
    other, to uninstall [fs], from the world [w] on: the exceptions it
    raises, in order, and the world it leaves. *)
Fixpoint uninstall_failures {World : Type} (web3 : node World)
    (fs : list EventListenerService.filter_info) (w : World)
  : list exn * World :=
  match fs with
  | [] => ([], w)
  | f :: rest =>
      let '(answer, w1) :=
        uninstall_filter web3
          (filter_id (EventListenerService.filter f)) w in
      let '(failures, w2) := uninstall_failures web3 rest w1 in
      (match answer with
       | Raise e => e :: failures
       | Ok _ => failures
       end, w2)
  end.

(** The same log with other topics. *)
Definition with_topics (topics : option (list string)) (e : RawEvent.t)
  : RawEvent.t :=
  RawEvent.mk topics (RawEvent.data e) (RawEvent.timestamp e)
    (RawEvent.transactionHash e) (RawEvent.blockNumber e)
    (RawEvent.logIndex e) (RawEvent.address e) (RawEvent.gasUsed e)
    (RawEvent.gasPrice e).

(** A transfer log the ERC20 transformer can take in: its payload
    parses, and it has a timestamp, not zero, that the clock renders. *)
Definition transformable (clock : Z -> result string) (event : RawEvent.t)
  : bool :=
  is_ok (DataTransformer._transform_erc20_transfer clock event)
  && match RawEvent.timestamp event with
     | Some ts => negb (ts =? 0)
     | None => false
     end.

End Observe.
Export Observe.

(* ===================================================================== *)
(** * Further parts of the sources

    - [etl_python/services/event_handler.py]
    - [etl_python/services/event_listener.py]: the polling loop
    - [etl_python/services/ethereum_client.py]: [get_contract_logs]
    - [extract_data.py], [transform_data.py], [load_data.py], [config.py]  *)
(* ===================================================================== *)

(* ===================================================================== *)
(** * [etl_python/services/event_handler.py]                             *)
(* ===================================================================== *)

Module EventHandlerService.








End EventHandlerService.

(* ===================================================================== *)
(** * [etl_python/services/event_listener.py]: polling                   *)
(* ===================================================================== *)

Module EventListenerLoop.
Import EventListenerService.
Section Loop.
Context {World : Type} (sem : handler_semantics World) (web3 : node World).
(** [filter.get_new_entries()] of the filter with a given id. *)
Variable get_new_entries : string -> World -> result (list LogReceipt.t) * World.





End Loop.
End EventListenerLoop.

(* ===================================================================== *)
(** * What the properties below speak of                                 *)
(* ===================================================================== *)

Module Views.








End Views.
Export Views.

(* ===================================================================== *)
(** * Further sample inputs                                              *)
(* ===================================================================== *)

Module MoreSamples.


End MoreSamples.


(* ===================================================================== *)
(** * [transform_data.py]: Uniswap events, whole bundles, analytics      *)
(* ===================================================================== *)

(** A transformed Uniswap event.  [_transform_uniswap_initialize] sets
    no ['sender'] key ([None] below); the other two set it, to [None]
    when the log has fewer than three topics. *)
Module UniswapTransformed.
Record t : Type := mk {
  transaction_hash : option string;
  block_number : option Z;
  pool_id : option string;
  sender : option (option string);
  timestamp : option string;
  event_type : string
}.
End UniswapTransformed.

Module UniswapSummary.
Record t : Type := mk {
  total_swaps : nat;
  total_initializations : nat;
  total_liquidity_changes : nat;
  unique_pools : nat;
  trading_volume_events : nat;
  new_pools_created : nat
}.
End UniswapSummary.

(** The value of [transform_uniswap_events], without its wall-clock
    [transformation_timestamp]. *)
Module UniswapResult.
Record t : Type := mk {
  swap_events : list UniswapTransformed.t;
  initialize_events : list UniswapTransformed.t;
  liquidity_events : list UniswapTransformed.t;
  summary : UniswapSummary.t
}.
End UniswapResult.

(** The value of [_transform_generic_events], without its wall-clock
    [transformation_timestamp]. *)
Module GenericResult.
Record t : Type := mk {
  events : list RawEvent.t;
  event_count : nat
}.
End GenericResult.

(** What [transformed_events] holds for one contract: one of the three
    dictionaries above, told apart by their keys. *)
Inductive contract_data : Type :=
| erc20_data (r : ERC20Result.t)
| uniswap_data (r : UniswapResult.t)
| generic_data (r : GenericResult.t).

(** [analytics]; the constant [temporal_analysis] entry is left out.
    [event_distribution] is a dictionary in insertion order. *)
Module Analytics.
Record t : Type := mk {
  total_events_processed : nat;
  contracts_analyzed : nat;
  event_distribution : list (string * nat)
}.
End Analytics.

(** The extracted bundle as read back from JSON.  [latest_block] and
    [events] may be missing; [block_range] and [summary], which are
    copied into the metadata untouched, are left out. *)
Module ExtractedData.
Record t : Type := mk {
  extraction_timestamp : option string;
  latest_block : option BlockData.t;
  events : option (list (string * list RawEvent.t))
}.
End ExtractedData.

(** The transformed bundle.  [transformed_blocks] is [None] for the
    empty dictionary the bundle starts with. *)
Module TransformedData.
Record t : Type := mk {
  original_extraction_timestamp : option string;
  transformed_blocks : option TransformedBlock.t;
  transformed_events : list (string * contract_data);
  analytics : Analytics.t
}.
End TransformedData.

Module Transformer.
Import DataTransformer.

(** [d[k] = v] on a dictionary kept in insertion order: an existing
    key keeps its place. *)
Fixpoint dict_set {V : Type} (k : string) (v : V) (d : list (string * V))
  : list (string * V) :=
  match d with
  | [] => [(k, v)]
  | (k', v') :: r =>
      if decide (k' = k) then (k, v) :: r else (k', v') :: dict_set k v r
  end.

Section WithClock.
Variable fromtimestamp_isoformat : Z -> result string.

(** [event.get('topics', [{}])[0] if event.get('topics') else None] *)
Definition event_signature (event : RawEvent.t) : option string :=
  match RawEvent.topics event with
  | Some (topic0 :: _) => Some topic0
  | _ => None
  end.

(** [topics[1] if len(topics) > 1 else None] *)
Definition pool_id_of (event : RawEvent.t) : option string :=
  default [] (RawEvent.topics event) !! 1%nat.

(** ['0x' + topics[2][-40:] if len(topics) > 2 else None] *)
Definition sender_of (event : RawEvent.t) : option string :=
  (fun topic2 => "0x" +:+ str_last_n 40 topic2)
    <$> default [] (RawEvent.topics event) !! 2%nat.
















End WithClock.
End Transformer.

(* ===================================================================== *)
(** * Measures of transformed data                                       *)
(* ===================================================================== *)

Module Measures.
Import DataTransformer.


(** The logs of a batch that carry a given signature. *)
Definition with_signature (sig : string) (events : list RawEvent.t)
  : list RawEvent.t :=
  base.filter (fun e => Transformer.event_signature e = Some sig) events.




End Measures.
Export Measures.

(* ===================================================================== *)
(** * Sample bundles                                                     *)
(* ===================================================================== *)

Module Bundles.



End Bundles.

(* ===================================================================== *)
(** * [load_data.py]                                                     *)
(* ===================================================================== *)

(** The loader reads the transformed bundle back from a JSON file.  It
    only asks which keys a dictionary has and how long its lists are,
    which the file preserves, so it is run on the bundle as the
    transformer builds it. *)

(** An item of an ['events'] list: a transformed transfer or, for a
    generic contract, a raw log. *)
Inductive event_item : Type :=
| transfer_item (t : TransformedTransfer.t)
| raw_item (e : RawEvent.t).

Module ChunkInfo.
Record t : Type := mk {
  chunk_index : nat;
  start_index : nat;
  end_index : nat;
  total_events : nat
}.
End ChunkInfo.

(** A chunk sent to the webhook.  Every chunk carries the metadata and
    the analytics of the bundle.  A chunk of events has the name of
    its contract, its slice of the events and a filled [chunk_info];
    the chunk sent when there is nothing to slice has an empty
    [chunk_info] ([None]) and the transformed block instead. *)
Module Chunk.
Record t : Type := mk {
  original_extraction_timestamp : option string;
  analytics : Analytics.t;
  chunk_info : option ChunkInfo.t;
  contract_name : option string;
  events : option (list event_item);
  event_count : nat;
  transformed_blocks : option (option TransformedBlock.t)
}.
End Chunk.

Module LoadStatistics.
Record t : Type := mk {
  events_loaded : nat;
  blocks_loaded : nat;
  errors : nat
}.
(** [__init__] *)
Definition initial : t := mk 0 0 0.
End LoadStatistics.

Module DataLoader.

(** [contract_data['events']], when the key is there. *)
Definition events_of (contract_data : contract_data)
  : option (list event_item) :=
  match contract_data with
  | erc20_data r => Some (transfer_item <$> ERC20Result.events r)
  | generic_data r => Some (raw_item <$> GenericResult.events r)
  | uniswap_data _ => None
  end.

(** [range(0, stop, step)] *)
Definition range_step (stop : nat) (step : Z) : result (list nat) :=
  if step =? 0 then Raise ValueError
  else if step <? 0 then Ok []
  else
    let n := Z.to_nat step in
    Ok ((fun k => k * n)%nat <$> seq 0 ((stop + n - 1) / n)%nat).

(** [l[i:i + n]] for non-negative [i] and [n] *)
Definition slice {A} (l : list A) (i n : nat) : list A := take n (drop i l).

(** The inner loop of [_chunk_data_for_api]: the chunks of one
    contract, appended to [chunks]. *)
Definition chunk_events (data : TransformedData.t) (contract_name : string)
    (events : list event_item) (max_chunk_size : Z) (chunks : list Chunk.t)
  : result (list Chunk.t) :=
  starts <- range_step (length events) max_chunk_size ;;
  Ok (foldl (fun chunks i =>
               let slice := slice events i (Z.to_nat max_chunk_size) in
               chunks ++
               [Chunk.mk
                  (TransformedData.original_extraction_timestamp data)
                  (TransformedData.analytics data)
                  (Some (ChunkInfo.mk
                           (length chunks) i
                           (Nat.min (i + Z.to_nat max_chunk_size) (length events))
                           (length events)))
                  (Some contract_name) (Some slice) (length slice) None])
            chunks starts).

(** The loop over [events_data.items()]. *)
Fixpoint chunk_contracts (data : TransformedData.t)
    (items : list (string * contract_data)) (max_chunk_size : Z)
    (chunks : list Chunk.t) : result (list Chunk.t) :=
  match items with
  | [] => Ok chunks
  | (contract_name, contract_data) :: rest =>
      match events_of contract_data with
      | Some events =>
          chunks' <- chunk_events data contract_name events max_chunk_size chunks ;;
          chunk_contracts data rest max_chunk_size chunks'
      | None => chunk_contracts data rest max_chunk_size chunks
      end
  end.

Definition _chunk_data_for_api (data : TransformedData.t) (max_chunk_size : Z)
  : result (list Chunk.t) :=
  chunks <- chunk_contracts data (TransformedData.transformed_events data)
              max_chunk_size [] ;;
  match chunks with
  | [] =>
      Ok [Chunk.mk
            (TransformedData.original_extraction_timestamp data)
            (TransformedData.analytics data)
            None None None 0
            (Some (TransformedData.transformed_blocks data))]
  | _ :: _ => Ok chunks
  end.

(** What [load_to_database] adds up for one contract. *)
Definition database_count (contract_data : contract_data) : nat :=
  match contract_data with
  | erc20_data r => length (ERC20Result.events r)
  | generic_data r => length (GenericResult.events r)
  | uniswap_data r =>
      length (UniswapResult.swap_events r)
      + length (UniswapResult.initialize_events r)
      + length (UniswapResult.liquidity_events r)
  end.

(** [load_to_database]: the statistics it leaves; the counters are
    assigned, whatever they held, and [errors] is not touched. *)
Definition load_to_database (statistics : LoadStatistics.t)
    (transformed_data : TransformedData.t) : LoadStatistics.t :=
  let events_count :=
    foldl (fun events_count item => (events_count + database_count item.2)%nat)
          0%nat (TransformedData.transformed_events transformed_data) in
  LoadStatistics.mk events_count
    (match TransformedData.transformed_blocks transformed_data with
     | Some _ => 1
     | None => 0
     end)%nat
    (LoadStatistics.errors statistics).

Section Webhook.
(** The HTTP client, which is not part of the repository: whether
    [aiohttp] can be imported, entering and leaving the session, and
    [session.post], which answers with a status code. *)
Context {World : Type}.
Variable aiohttp_installed : bool.
Variable session_enter : World -> result unit * World.
Variable session_exit : World -> result unit * World.
Variable session_post : string -> Chunk.t -> World -> result Z * World.

Definition add_error (statistics : LoadStatistics.t) : LoadStatistics.t :=
  LoadStatistics.mk (LoadStatistics.events_loaded statistics)
    (LoadStatistics.blocks_loaded statistics)
    (S (LoadStatistics.errors statistics)).

Definition add_events (n : nat) (statistics : LoadStatistics.t)
  : LoadStatistics.t :=
  LoadStatistics.mk (LoadStatistics.events_loaded statistics + n)
    (LoadStatistics.blocks_loaded statistics)
    (LoadStatistics.errors statistics).

(** The [for i, chunk in enumerate(chunks)] loop. *)
Fixpoint send_chunks (webhook_url : string) (chunks : list Chunk.t)
    (statistics : LoadStatistics.t) (w : World) : LoadStatistics.t * World :=
  match chunks with
  | [] => (statistics, w)
  | chunk :: rest =>
      let '(response, w') := session_post webhook_url chunk w in
      let statistics' :=
        match response with
        | Ok status =>
            if status =? 200
            then add_events (Chunk.event_count chunk) statistics
            else add_error statistics
        | Raise _ => add_error statistics
        end in
      send_chunks webhook_url rest statistics' w'
  end.

(** [load_to_webhook] with the default chunk size. *)
Definition load_to_webhook (statistics : LoadStatistics.t)
    (transformed_data : TransformedData.t) (webhook_url : string) (w : World)
  : LoadStatistics.t * World :=
  if negb aiohttp_installed then (add_error statistics, w)
  else
    match _chunk_data_for_api transformed_data 1000 with
    | Raise _ => (add_error statistics, w)
    | Ok chunks =>
        match session_enter w with
        | (Raise _, w1) => (add_error statistics, w1)
        | (Ok _, w1) =>
            let '(statistics', w2) :=
              send_chunks webhook_url chunks statistics w1 in
            match session_exit w2 with
            | (Raise _, w3) => (add_error statistics', w3)
            | (Ok _, w3) => (statistics', w3)
            end
        end
    end.

End Webhook.
End DataLoader.

(* ===================================================================== *)
(** * [etl_python/services/ethereum_client.py], [extract_data.py]        *)
(* ===================================================================== *)

(** The argument of [eth.get_logs]; [toBlock] is [None] for
    ['latest'], [topics] is [None] when the key is not set. *)
Module FilterParams.
Record t : Type := mk {
  address : string;
  fromBlock : Z;
  toBlock : option Z;
  topics : option (list string)
}.
End FilterParams.

(** The HTTP side of the web3 client. *)
Record http_node (World : Type) : Type := mk_http_node {
  latest_block_number : World -> result Z * World;
  get_logs : FilterParams.t -> World -> result (list LogReceipt.t) * World
}.
Arguments latest_block_number {World} _ _.
Arguments get_logs {World} _ _ _.

Module EthereumClient.
Section Client.
Context {World : Type} (web3_http : http_node World).

Definition get_latest_block_number : M World Z :=
  lift_world (latest_block_number web3_http).

Definition get_contract_logs (contract_address : string)
    (from_block to_block : option Z) (topics : option (list string))
  : M World (list LogReceipt.t) :=
  from_block' <-- match from_block with
                  | None => latest <-- get_latest_block_number ;;
                            ret (latest - 100)
                  | Some b => ret b
                  end ;;
  let filter_params :=
    FilterParams.mk contract_address from_block' to_block
      (match topics with
       | Some (_ :: _ as ts) => Some ts
       | _ => None
       end) in
  try_except
    (lift_world (get_logs web3_http filter_params))
    (fun e => log_error "Error getting contract logs" None e ;;; ret []).

End Client.
End EthereumClient.

(** A log with the three keys [extract_all_configured_events] adds. *)
Module ExtractedEvent.
Record t : Type := mk {
  log : LogReceipt.t;
  contract_name : string;
  event_name : string;
  event_signature : string
}.
End ExtractedEvent.

Module DataExtractor.
Import EthereumClient.
Section Extractor.
Context {World : Type} (web3_http : http_node World).

Definition extract_contract_events (contract_address : string)
    (from_block to_block : option Z) (event_signatures : option (list string))
  : M World (list LogReceipt.t) :=
  let topics := match event_signatures with
                | Some (_ :: _ as sigs) => Some sigs
                | _ => None
                end in
  get_contract_logs web3_http contract_address from_block to_block topics.

(** The [for event_config in contract.events] loop. *)
Fixpoint extract_events (contract : ContractConfig.t)
    (event_configs : list EventConfig.t) (from_block to_block : option Z)
    (contract_events : list ExtractedEvent.t)
  : M World (list ExtractedEvent.t) :=
  match event_configs with
  | [] => ret contract_events
  | event_config :: rest =>
      if EventConfig.enabled event_config then
        events <-- extract_contract_events (ContractConfig.address contract)
                     from_block to_block
                     (Some [EventConfig.signature event_config]) ;;
        let events :=
          (fun event =>
             ExtractedEvent.mk event (ContractConfig.name contract)
               (EventConfig.name event_config)
               (EventConfig.signature event_config)) <$> events in
        extract_events contract rest from_block to_block
          (contract_events ++ events)
      else extract_events contract rest from_block to_block contract_events
  end.

(** The [for contract in self.config.ethereum.contracts] loop. *)
Fixpoint extract_contracts (contracts : list ContractConfig.t)
    (from_block to_block : option Z)
    (all_events : list (string * list ExtractedEvent.t))
  : M World (list (string * list ExtractedEvent.t)) :=
  match contracts with
  | [] => ret all_events
  | contract :: rest =>
      contract_events <-- extract_events contract (ContractConfig.events contract)
                            from_block to_block [] ;;
      extract_contracts rest from_block to_block
        (Transformer.dict_set (ContractConfig.name contract) contract_events
           all_events)
  end.

Definition extract_all_configured_events (contracts : list ContractConfig.t)
    (from_block to_block : option Z)
  : M World (list (string * list ExtractedEvent.t)) :=
  extract_contracts contracts from_block to_block [].

End Extractor.
End DataExtractor.

(* ===================================================================== *)
(** * [config.py]: environment variables                                 *)
(* ===================================================================== *)

Module Config.

(** What [yaml.safe_load] returns, as far as [_substitute_env_vars]
    tells values apart: dictionaries, lists, strings, and anything
    else. *)
Inductive yaml : Type :=
| YStr (s : string)
| YInt (n : Z)
| YBool (b : bool)
| YNull
| YList (items : list yaml)
| YDict (entries : list (string * yaml)).

(** [s.startswith("${")] *)
Definition starts_with_placeholder (s : string) : bool :=
  match s with
  | String "$" (String "{" _) => true
  | _ => false
  end.

(** [s.endswith("}")] *)
Fixpoint ends_with_brace (s : string) : bool :=
  match s with
  | EmptyString => false
  | String c EmptyString => Ascii.eqb c "}"
  | String _ r => ends_with_brace r
  end.

(** [s[:-1]] *)
Fixpoint drop_last (s : string) : string :=
  match s with
  | EmptyString => EmptyString
  | String _ EmptyString => EmptyString
  | String c r => String c (drop_last r)
  end.

(** [s.split(":", 1)] when [":" in s]: the text before the first
    colon and the text after it. *)
Fixpoint split_colon (s : string) : option (string * string) :=
  match s with
  | EmptyString => None
  | String c r =>
      if Ascii.eqb c ":" then Some (EmptyString, r)
      else match split_colon r with
           | Some (name, rest) => Some (String c name, rest)
           | None => None
           end
  end.

(** The branch of [_substitute_env_vars] for a string; [environ] is
    [os.environ]. *)
Definition substitute_str (environ : gmap string string) (data : string)
  : string :=
  if starts_with_placeholder data && ends_with_brace data then
    let env_var := drop_last (str_drop 2 data) in
    match split_colon env_var with
    | Some (var_name, default_value) =>
        default default_value (environ !! var_name)
    | None => default data (environ !! env_var)
    end
  else data.

Fixpoint _substitute_env_vars (environ : gmap string string) (data : yaml)
  : yaml :=
  match data with
  | YDict entries =>
      YDict ((fun entry => (entry.1, _substitute_env_vars environ entry.2))
               <$> entries)
  | YList items => YList (_substitute_env_vars environ <$> items)
  | YStr s => YStr (substitute_str environ s)
  | other => other
  end.

(** A string that [_substitute_env_vars] reads as a reference to the
    environment. *)
Definition is_placeholder (s : string) : bool :=
  starts_with_placeholder s && ends_with_brace s.

(** No string of the configuration is such a reference. *)
Fixpoint plain (data : yaml) : bool :=
  match data with
  | YStr s => negb (is_placeholder s)
  | YList items => forallb plain items
  | YDict entries => forallb (fun entry => plain entry.2) entries
  | _ => true
  end.

(** The configuration with its strings erased. *)
Fixpoint shape (data : yaml) : yaml :=
  match data with
  | YStr _ => YStr EmptyString
  | YList items => YList (shape <$> items)
  | YDict entries => YDict ((fun entry => (entry.1, shape entry.2)) <$> entries)
  | other => other
  end.

End Config.

(* ===================================================================== *)
(** * Measures of what is loaded and extracted                           *)
(* ===================================================================== *)

Module LoaderViews.

(** The events of the contracts that have an ['events'] key, in the
    order of the bundle. *)
Definition listed_events (tevs : list (string * contract_data))
  : list event_item :=
  concat ((fun item => default [] (DataLoader.events_of item.2)) <$> tevs).

(** The events the chunks carry, in the order of the chunks. *)
Definition chunk_payload (chunks : list Chunk.t) : list event_item :=
  concat ((fun chunk => default [] (Chunk.events chunk)) <$> chunks).

(** The sum of the ['event_count'] of the chunks. *)
Definition sent_count (chunks : list Chunk.t) : nat :=
  sum_list (Chunk.event_count <$> chunks).

(** A webhook that answers every post with the same status, and one
    whose connection fails. *)
Definition answering (status : Z) : string -> Chunk.t -> unit -> result Z * unit :=
  fun _ _ w => (Ok status, w).

Definition refusing : string -> Chunk.t -> unit -> result Z * unit :=
  fun _ _ w => (Raise (Web3Error "connection refused"), w).

Definition session_ok : unit -> result unit * unit := fun w => (Ok tt, w).

(** A node over HTTP whose world is the list of the filters it was
    asked for; it knows the logs of one address and fails for another. *)
Definition recording_node (known failing : string) (logs : list LogReceipt.t)
  : http_node (list FilterParams.t) :=
  mk_http_node (list FilterParams.t)
    (fun w => (Ok 1000, w))
    (fun params w =>
       (if String.eqb (FilterParams.address params) failing
        then Raise (Web3Error "query returned more than 10000 results")
        else if String.eqb (FilterParams.address params) known
        then Ok logs else Ok [],
        w ++ [params])).

(** A node whose latest block cannot be read. *)
Definition unreachable_node : http_node (list FilterParams.t) :=
  mk_http_node (list FilterParams.t)
    (fun w => (Raise (Web3Error "connection refused"), w))
    (fun params w => (Ok [], w ++ [params])).

End LoaderViews.
Export LoaderViews.
(* ===================================================================== *)
(** * Properties: hexadecimal text and slices                            *)
(* ===================================================================== *)

Section HexFacts.

Lemma byte_val_range b : 0 <= byte_val b < 256.
Proof.
  unfold byte_val. pose proof (Byte.to_N_bounded b) as H. lia.
Qed.

Lemma byte_val_of z : 0 <= z < 256 -> byte_val (byte_of z) = z.
Proof.
  intros Hz. unfold byte_val, byte_of.
  pose proof (Byte.to_of_N_option_map (Z.to_N z)) as H.
  destruct (Byte.of_N (Z.to_N z)) as [b|] eqn:E; simpl in *.
  - apply Byte.to_of_N in E. rewrite E. lia.
  - destruct (N.leb_spec (Z.to_N z) 255); [discriminate | lia].
Qed.

Lemma int16_digits_byte b acc rest :
  int16_digits acc
    (String (hexdigit (Byte.to_N b / 16))
       (String (hexdigit (Byte.to_N b mod 16)) rest))
  = int16_digits (256 * acc + byte_val b) rest.
Proof.
  destruct b; cbn -[int16_digits Z.mul Z.add];
    cbn [int16_digits hex_value]; f_equal; unfold byte_val; simpl; lia.
Qed.

Lemma int16_digits_bytes_hex bs acc :
  int16_digits acc (bytes_hex bs)
  = Some (foldl (fun a b => 256 * a + byte_val b) acc bs).
Proof.
  revert acc. induction bs as [|b bs IH]; intros acc; [reflexivity|].
  cbn [bytes_hex foldl]. rewrite int16_digits_byte. apply IH.
Qed.

Lemma bytes_hex_nonempty b bs : bytes_hex (b :: bs) <> EmptyString.
Proof. discriminate. Qed.

(** [int(data.hex(), 16)] reads back the big-endian value. *)
Lemma int16_hexbytes_hex bs :
  bs <> [] -> int16 (hexbytes_hex bs) = Ok (be_value bs).
Proof.
  destruct bs as [|b bs]; [done|]. intros _.
  unfold int16.
  replace (strip_0x (hexbytes_hex (b :: bs))) with (bytes_hex (b :: bs))
    by reflexivity.
  pose proof (int16_digits_bytes_hex (b :: bs) 0) as H.
  cbn [bytes_hex] in *. rewrite H. reflexivity.
Qed.

Lemma foldl_be_encode n v acc :
  0 <= v ->
  foldl (fun a b => 256 * a + byte_val b) acc (be_encode n v)
  = acc * 256 ^ Z.of_nat n + v mod 256 ^ Z.of_nat n.
Proof.
  intros Hv. revert acc. induction n as [|k IH]; intros acc.
  - cbn. rewrite Z.mod_1_r. lia.
  - cbn [be_encode foldl]. rewrite IH.
    rewrite byte_val_of by (apply Z.mod_pos_bound; lia).
    rewrite Nat2Z.inj_succ, Z.pow_succ_r by lia.
    assert (Hp : 0 < 256 ^ Z.of_nat k) by (apply Z.pow_pos_nonneg; lia).
    rewrite (Z.mul_comm 256 (256 ^ Z.of_nat k)).
    rewrite (Z.rem_mul_r v (256 ^ Z.of_nat k) 256) by lia.
    lia.
Qed.

Lemma be_value_encode n v :
  0 <= v < 256 ^ Z.of_nat n -> be_value (be_encode n v) = v.
Proof.
  intros Hv. unfold be_value. rewrite foldl_be_encode by lia.
  rewrite Z.mod_small; lia.
Qed.

Lemma be_encode_length n v : length (be_encode n v) = n.
Proof. induction n; cbn; congruence. Qed.

Lemma last_n_pad20 (a : bytes) : length a = 20%nat -> last_n 20 (pad20 a) = a.
Proof.
  intros Ha. unfold last_n, pad20.
  rewrite length_app, repeat_length, Ha.
  apply drop_app_length'. by rewrite repeat_length.
Qed.

Lemma str_app_cons c s1 s2 : String c s1 +:+ s2 = String c (s1 +:+ s2).
Proof. reflexivity. Qed.

Lemma str_drop_app s1 s2 : str_drop (String.length s1) (s1 +:+ s2) = s2.
Proof.
  induction s1 as [|c s1 IH]; [by destruct s2|].
  rewrite str_app_cons. exact IH.
Qed.

Lemma str_length_app s1 s2 :
  String.length (s1 +:+ s2) = (String.length s1 + String.length s2)%nat.
Proof.
  induction s1 as [|c s1 IH]; [done|].
  rewrite str_app_cons. simpl. by rewrite IH.
Qed.

Lemma bytes_hex_app l1 l2 : bytes_hex (l1 ++ l2) = bytes_hex l1 +:+ bytes_hex l2.
Proof.
  induction l1 as [|b l1 IH]; [done|].
  simpl. rewrite IH. by rewrite !str_app_cons.
Qed.

Lemma bytes_hex_length l : String.length (bytes_hex l) = (2 * length l)%nat.
Proof. induction l as [|b l IH]; simpl; [done | rewrite IH; lia]. Qed.

Lemma str_app_assoc s1 s2 s3 : (s1 +:+ s2) +:+ s3 = s1 +:+ (s2 +:+ s3).
Proof.
  induction s1 as [|c s1 IH]; [done|].
  rewrite !str_app_cons. by rewrite IH.
Qed.

(** The last forty digits of a padded topic are the digits of the
    address. *)
Lemma str_last_n_topic (a : bytes) :
  length a = 20%nat ->
  str_last_n 40 (hexbytes_hex (pad20 a)) = bytes_hex a.
Proof.
  intros Ha. unfold str_last_n, hexbytes_hex, pad20.
  rewrite bytes_hex_app, <- str_app_assoc.
  set (p := "0x" +:+ bytes_hex (repeat Byte.x00 12)).
  rewrite str_length_app, (bytes_hex_length a), Ha.
  replace (String.length p + 2 * 20 - 40)%nat with (String.length p) by lia.
  apply str_drop_app.
Qed.

End HexFacts.

(* ===================================================================== *)
(** * C1: decoding an ERC20 transfer                                     *)
(* ===================================================================== *)

Section TransferDecode.
Import EventListenerService DataTransformer.

Lemma index_lookup {A} (l : list A) (i : nat) (x : A) :
  l !! i = Some x -> index l i = Ok x.
Proof. unfold index. by intros ->. Qed.

Lemma be_encode_value_text n V :
  0 <= V < 256 ^ Z.of_nat n ->
  match be_encode n V with
  | [] => Ok 0
  | _ :: _ => int16 (hexbytes_hex (be_encode n V))
  end = Ok V.
Proof.
  intros HV. destruct (be_encode n V) as [|b bs] eqn:E.
  - f_equal. rewrite <- (be_value_encode n V HV), E. reflexivity.
  - rewrite int16_hexbytes_hex by done. rewrite <- E.
    by rewrite be_value_encode.
Qed.

Lemma startswith_0x_hexbytes bs : startswith_0x (hexbytes_hex bs) = true.
Proof. reflexivity. Qed.

Lemma hexbytes_hex_is_0x bs :
  String.eqb (hexbytes_hex bs) "0x" = true -> bs = [].
Proof. destruct bs as [|b bs]; [done|]. intros H. discriminate H. Qed.

(** C1.  ERC20 transfer decode round-trip.  For a log whose topics are
    [[sig; pad20 A; pad20 B]] and whose payload is the big-endian
    encoding of an unsigned integer [V] (of any width, so also beyond
    64 bits), the live decoder yields the normalised [A] and [B] as
    [from_address] and [to_address] and the exact value [V], and an
    empty payload decodes to [0]; the batch decoder, on the same log
    in hex text, yields the digits of [A] and [B] and the exact [V],
    and [0] for the empty payload ["0x"]. *)
Theorem erc20_transfer_decode_round_trip
    {World : Type} (web3 : node World) (clock : Z -> result string)
    (sig A B : bytes) (n : nat) (V : Z) (a b : string)
    (log : LogReceipt.t) (contract : ContractConfig.t) (ts : datetime)
    (raw : RawEvent.t) (text : option string) :
  length A = 20%nat ->
  length B = 20%nat ->
  0 <= V < 256 ^ Z.of_nat n ->
  to_checksum_address web3 A = Ok a ->
  to_checksum_address web3 B = Ok b ->
  LogReceipt.topics log = [sig; pad20 A; pad20 B] ->
  RawEvent.topics raw = Some (hexbytes_hex <$> [sig; pad20 A; pad20 B]) ->
  timestamp_text clock raw = Ok text ->
  (LogReceipt.data log = be_encode n V ->
   exists ev,
     _create_erc20_transfer_event web3 log contract ts = Ok ev
     /\ ERC20TransferEvent.from_address ev = a
     /\ ERC20TransferEvent.to_address ev = b
     /\ ERC20TransferEvent.value ev = Decimal.of_int V
     /\ Decimal.value (ERC20TransferEvent.value ev) = V)
  /\ (LogReceipt.data log = [] ->
      exists ev,
        _create_erc20_transfer_event web3 log contract ts = Ok ev
        /\ ERC20TransferEvent.from_address ev = a
        /\ ERC20TransferEvent.to_address ev = b
        /\ ERC20TransferEvent.value ev = Decimal.of_int 0)
  /\ (RawEvent.data raw = Some (hexbytes_hex (be_encode n V)) ->
      exists te,
        _transform_erc20_transfer clock raw = Ok te
        /\ TransformedTransfer.from_address te = "0x" +:+ bytes_hex A
        /\ TransformedTransfer.to_address te = "0x" +:+ bytes_hex B
        /\ TransformedTransfer.value_int te = V
        /\ TransformedTransfer.value_decimal te = Decimal.of_int V)
  /\ (RawEvent.data raw = Some "0x" \/ RawEvent.data raw = Some ""
      \/ RawEvent.data raw = None ->
      exists te,
        _transform_erc20_transfer clock raw = Ok te
        /\ TransformedTransfer.from_address te = "0x" +:+ bytes_hex A
        /\ TransformedTransfer.to_address te = "0x" +:+ bytes_hex B
        /\ TransformedTransfer.value_int te = 0).
Proof.
  intros HA HB HV Ha Hb Htopics Hraw Htext.
  assert (Hlive : forall d v,
    LogReceipt.data log = d ->
    match d with [] => Ok 0 | _ :: _ => int16 (hexbytes_hex d) end = Ok v ->
    exists ev,
      _create_erc20_transfer_event web3 log contract ts = Ok ev
      /\ ERC20TransferEvent.from_address ev = a
      /\ ERC20TransferEvent.to_address ev = b
      /\ ERC20TransferEvent.value ev = Decimal.of_int v).
  { intros d v Hd Hval. unfold _create_erc20_transfer_event.
    rewrite Htopics, Hd. cbn [index lookup list_lookup rbind].
    rewrite (last_n_pad20 A HA), Ha. cbn [rbind].
    rewrite (last_n_pad20 B HB), Hb. cbn [rbind].
    rewrite Hval. cbn [rbind]. eexists. repeat split. }
  assert (Hbatch : forall d v,
    RawEvent.data raw = d ->
    (let value_hex :=
       if startswith_0x (default "0x" d) then default "0x" d
       else "0x" +:+ default "0x" d in
     if String.eqb value_hex "0x" then Ok 0 else int16 value_hex) = Ok v ->
    exists te,
      _transform_erc20_transfer clock raw = Ok te
      /\ TransformedTransfer.from_address te = "0x" +:+ bytes_hex A
      /\ TransformedTransfer.to_address te = "0x" +:+ bytes_hex B
      /\ TransformedTransfer.value_int te = v
      /\ TransformedTransfer.value_decimal te = Decimal.of_int v).
  { intros d v Hd Hval. unfold _transform_erc20_transfer.
    rewrite Hraw, Hd. cbn zeta in Hval. rewrite Hval. cbn [rbind].
    rewrite Htext. cbn [rbind]. eexists. split; [reflexivity|].
    cbn [TransformedTransfer.from_address TransformedTransfer.to_address
         TransformedTransfer.value_int TransformedTransfer.value_decimal].
    unfold address_from_topic.
    cbn [default from_option id fmap list_fmap lookup list_lookup].
    rewrite !str_last_n_topic by done. done. }
  split; [|split; [|split]].
  - intros Hd. destruct (Hlive _ V Hd (be_encode_value_text n V HV))
      as (ev & ? & ? & ? & Hval).
    exists ev. repeat split; try done.
    rewrite Hval. unfold Decimal.value, Decimal.of_int. cbn. lia.
  - intros Hd. exact (Hlive [] 0 Hd eq_refl).
  - intros Hd. apply (Hbatch _ V Hd). cbn [default from_option id].
    rewrite startswith_0x_hexbytes.
    destruct (String.eqb (hexbytes_hex (be_encode n V)) "0x") eqn:E.
    + apply hexbytes_hex_is_0x in E.
      pose proof (be_encode_value_text n V HV) as H. rewrite E in H. exact H.
    + pose proof (be_encode_value_text n V HV) as H.
      destruct (be_encode n V); [discriminate E | exact H].
  - intros Hd.
    assert (exists te,
      _transform_erc20_transfer clock raw = Ok te
      /\ TransformedTransfer.from_address te = "0x" +:+ bytes_hex A
      /\ TransformedTransfer.to_address te = "0x" +:+ bytes_hex B
      /\ TransformedTransfer.value_int te = 0
      /\ TransformedTransfer.value_decimal te = Decimal.of_int 0)
      as (te & ? & ? & ? & ? & _).
    { destruct Hd as [Hd | [Hd | Hd]]; apply (Hbatch _ 0 Hd); reflexivity. }
    exists te. done.
Qed.

Lemma erc20_transfer_decode_round_trip_witness :
  (exists ev,
     _create_erc20_transfer_event Samples.quiet_node
       (Samples.log_with
          [Samples.transfer_sig; pad20 Samples.alice; pad20 Samples.bob]
          (be_encode 32 Samples.big_value))
       Samples.usdc 1700000000 = Ok ev
     /\ ERC20TransferEvent.from_address ev = hexbytes_hex Samples.alice
     /\ ERC20TransferEvent.to_address ev = hexbytes_hex Samples.bob
     /\ ERC20TransferEvent.value ev = Decimal.of_int Samples.big_value
     /\ Decimal.value (ERC20TransferEvent.value ev) = Samples.big_value)
  /\ (exists te,
        _transform_erc20_transfer Samples.frozen_clock
          (Samples.raw_with
             (hexbytes_hex <$>
                [Samples.transfer_sig; pad20 Samples.alice; pad20 Samples.bob])
             (hexbytes_hex (be_encode 32 Samples.big_value))
             (Some 1700000000)) = Ok te
        /\ TransformedTransfer.from_address te = "0x" +:+ bytes_hex Samples.alice
        /\ TransformedTransfer.to_address te = "0x" +:+ bytes_hex Samples.bob
        /\ TransformedTransfer.value_int te = Samples.big_value
        /\ TransformedTransfer.value_decimal te
           = Decimal.of_int Samples.big_value).
Proof.
  destruct (erc20_transfer_decode_round_trip Samples.quiet_node
              Samples.frozen_clock Samples.transfer_sig Samples.alice
              Samples.bob 32 Samples.big_value
              (hexbytes_hex Samples.alice) (hexbytes_hex Samples.bob)
              (Samples.log_with
                 [Samples.transfer_sig; pad20 Samples.alice; pad20 Samples.bob]
                 (be_encode 32 Samples.big_value))
              Samples.usdc 1700000000
              (Samples.raw_with
                 (hexbytes_hex <$>
                    [Samples.transfer_sig; pad20 Samples.alice;
                     pad20 Samples.bob])
                 (hexbytes_hex (be_encode 32 Samples.big_value))
                 (Some 1700000000))
              (Some "2023-11-14T22:13:20"))
    as (Hlive & _ & Hbatch & _);
    try reflexivity.
  - split; [vm_compute; discriminate | reflexivity].
  - split; [apply Hlive | apply Hbatch]; reflexivity.
Defined.

(** The values named by the property, on 32-byte payloads, and the
    empty payload. *)
Lemma erc20_transfer_values_zero_one_and_big :
  let decode v :=
    ERC20TransferEvent.value <$>
      _create_erc20_transfer_event Samples.quiet_node
        (Samples.log_with
           [Samples.transfer_sig; pad20 Samples.alice; pad20 Samples.bob] v)
        Samples.usdc 1700000000 in
  decode (be_encode 32 0) = Ok (Decimal.of_int 0)
  /\ decode (be_encode 32 1) = Ok (Decimal.of_int 1)
  /\ decode (be_encode 32 (2 ^ 64 + 1))
     = Ok (Decimal.of_int 18446744073709551617)
  /\ decode [] = Ok (Decimal.of_int 0).
Proof. repeat split. Qed.

End TransferDecode.

(* ===================================================================== *)
(** * The event bus: dispatch                                            *)
(* ===================================================================== *)

Section DispatchFacts.
Import EventBus.
Context {World : Type} (sem : handler_semantics World).

Lemma raised_app fin1 fin2 : raised (fin1 ++ fin2) = raised fin1 ++ raised fin2.
Proof. unfold raised. apply omap_app. Qed.

Lemma logged_app msg l1 l2 : logged msg (l1 ++ l2) = logged msg l1 ++ logged msg l2.
Proof. unfold logged. apply fmap_app. Qed.

(** The loop over the synchronous group: every handler is called, in
    order, whatever the handlers before it did; each one that raises
    leaves one error record. *)
Lemma sync_loop_spec (msg : string) (hs : list bound_method) (ev : event)
    (s : sys World) :
  exists s' fin,
    for_each hs (fun subscriber =>
      try_except (invoke sem subscriber ev)
        (fun e => log_error msg (Some subscriber) e)) s = (Ok tt, s')
    /\ calls s' = calls s ++ ((fun h => (h, ev)) <$> hs)
    /\ finished s' = finished s ++ fin
    /\ fin.*1 = hs
    /\ errors s' = errors s ++ logged msg (raised fin).
Proof.
  revert s. induction hs as [|h hs IH]; intros s.
  - exists s, []. cbn. by rewrite !app_nil_r.
  - cbn [for_each]. unfold bind at 1. unfold try_except at 1.
    unfold invoke at 1. unfold bind at 1. unfold record_call at 1.
    cbn [world calls finished errors].
    destruct (call_sync sem h ev (world s)) as [r w] eqn:Hcall.
    destruct r as [[]|e]; cbn [record_finished world calls finished errors].
    + match goal with |- context [for_each hs ?f ?s0] =>
        destruct (IH s0) as (s' & fin & Hrun & Hc & Hf & Hh & He) end.
      exists s', ((h, Ok tt) :: fin). rewrite Hrun.
      cbn [calls finished errors] in *.
      rewrite Hc, Hf, He. cbn. rewrite Hh, <- !app_assoc. done.
    + unfold log_error at 1. cbn [world calls finished errors].
      match goal with |- context [for_each hs ?f ?s0] =>
        destruct (IH s0) as (s' & fin & Hrun & Hc & Hf & Hh & He) end.
      exists s', ((h, Raise e) :: fin). rewrite Hrun.
      cbn [calls finished errors] in *.
      rewrite Hc, Hf, He. cbn. rewrite Hh, <- !app_assoc. done.
Qed.

(** The loop that creates the tasks: every handler of the concurrent
    group is called, in order; a call that raises is logged and the
    loop goes on; every other call becomes a task waiting to run. *)
Lemma create_tasks_spec (hs : list bound_method) (ev : event)
    (tasks : list (task World)) (s : sys World) :
  exists s' new fin,
    create_tasks sem hs ev tasks s = (Ok (tasks ++ new), s')
    /\ calls s' = calls s ++ ((fun h => (h, ev)) <$> hs)
    /\ finished s' = finished s ++ fin
    /\ Forall (fun t => pending t = true) new
    /\ fin.*1 ++ (task_handler <$> new) ≡ₚ hs
    /\ Forall (fun hr => is_ok hr.2 = false) fin
    /\ errors s' = errors s
         ++ logged "Error creating task for async subscriber" (raised fin).
Proof.
  revert tasks s. induction hs as [|h hs IH]; intros tasks s.
  - exists s, [], []. cbn. rewrite !app_nil_r. repeat split; constructor.
  - cbn [create_tasks]. unfold bind at 1. unfold try_except at 1.
    unfold bind at 1. unfold invoke_async at 1. unfold bind at 1.
    unfold record_call at 1. cbn [world calls finished errors].
    destruct (call_async sem h ev (world s)) as [r w] eqn:Hcall.
    destruct r as [c|e]; cbn [record_finished world calls finished errors ret].
    + match goal with |- context [create_tasks sem hs ev ?t0 ?s0] =>
        destruct (IH t0 s0)
          as (s' & new & fin & Hrun & Hc & Hf & Hp & Hperm & Hfail & He) end.
      exists s', (mk_task h (Pending c) :: new), fin.
      rewrite Hrun. cbn [calls finished errors] in *.
      rewrite Hc, <- !app_assoc. repeat split; try done.
      * by constructor.
      * cbn. symmetry. apply Permutation_cons_app. by symmetry.
    + unfold bind at 1. unfold log_error at 1. unfold record_finished.
      cbn [world calls finished errors ret].
      match goal with |- context [create_tasks sem hs ev ?t0 ?s0] =>
        destruct (IH t0 s0)
          as (s' & new & fin & Hrun & Hc & Hf & Hp & Hperm & Hfail & He) end.
      exists s', new, ((h, Raise e) :: fin).
      rewrite Hrun. cbn [calls finished errors] in *.
      rewrite Hc, Hf, He, <- !app_assoc. repeat split; try done.
      * cbn. by constructor.
      * by constructor.
Qed.

(** *** The event loop *)

Lemma pending_handlers_cons (t : task World) ts :
  pending_handlers (t :: ts)
  = (if pending t then [task_handler t] else []) ++ pending_handlers ts.
Proof.
  unfold pending_handlers. rewrite filter_cons.
  destruct (pending t); by case_decide.
Qed.

Lemma count_pending_cons (t : task World) ts :
  count_pending (t :: ts)
  = ((if pending t then 1 else 0) + count_pending ts)%nat.
Proof.
  unfold count_pending. rewrite filter_cons.
  destruct (pending t); by case_decide.
Qed.

Lemma total_work_cons (t : task World) ts :
  total_work (t :: ts) = (work t + total_work ts)%nat.
Proof. reflexivity. Qed.

(** One step of a task that has not finished: it either suspends
    again, or ends and is recorded with its own outcome. *)
Lemma resume_spec (t : task World) (s : sys World) :
  pending t = true ->
  exists t' s' fin,
    resume t s = (t', s')
    /\ S (work t') = work t
    /\ task_handler t' = task_handler t
    /\ calls s' = calls s
    /\ errors s' = errors s
    /\ finished s' = finished s ++ fin
    /\ fin.*1 ++ (if pending t' then [task_handler t'] else [])
       = [task_handler t].
Proof.
  destruct t as [h [c|r]]; [intros _ | discriminate].
  unfold resume. cbn [state task_handler].
  destruct c as [[|f rest] fin_c]; cbn [segments final].
  - destruct (fin_c (world s)) as [r w] eqn:E.
    eexists _, _, [(h, r)]. split; [reflexivity|].
    cbn. repeat split; done.
  - eexists _, _, []. split; [reflexivity|].
    cbn. rewrite app_nil_r. repeat split; done.
Qed.

Lemma resume_nth_spec (n : nat) (ts : list (task World)) (s : sys World) :
  (n < count_pending ts)%nat ->
  exists ts' s' fin,
    resume_nth n ts s = (ts', s')
    /\ S (total_work ts') = total_work ts
    /\ calls s' = calls s
    /\ errors s' = errors s
    /\ finished s' = finished s ++ fin
    /\ fin.*1 ++ pending_handlers ts' ≡ₚ pending_handlers ts.
Proof.
  revert n s. induction ts as [|t ts IH]; intros n s Hn.
  - cbn in Hn. lia.
  - rewrite count_pending_cons in Hn. cbn [resume_nth].
    destruct (pending t) eqn:Hp.
    + destruct n as [|k].
      * destruct (resume_spec t s Hp)
          as (t' & s' & fin & Hr & Hw & Hh & Hc & He & Hf & Hfin).
        rewrite Hr. exists (t' :: ts), s', fin.
        split; [reflexivity|]. rewrite !total_work_cons.
        repeat split; try done; [lia|].
        rewrite !pending_handlers_cons, Hp.
        by rewrite app_assoc, Hfin.
      * destruct (IH k s ltac:(lia))
          as (ts' & s' & fin & Hr & Hw & Hc & He & Hf & Hfin).
        rewrite Hr. exists (t :: ts'), s', fin.
        split; [reflexivity|]. rewrite !total_work_cons.
        repeat split; try done; [lia|].
        rewrite !pending_handlers_cons, Hp. cbn.
        by rewrite <- Permutation_middle, Hfin.
    + destruct (IH n s ltac:(lia))
        as (ts' & s' & fin & Hr & Hw & Hc & He & Hf & Hfin).
      rewrite Hr. exists (t :: ts'), s', fin.
      split; [reflexivity|]. rewrite !total_work_cons.
      repeat split; try done; [lia|].
      by rewrite !pending_handlers_cons, Hp.
Qed.

(** With as many steps as the tasks have left, the loop ends with no
    task pending, whatever the order in which it resumed them; every
    task that was pending has finished exactly once. *)
Lemma run_loop_spec (fuel : nat) (pick : nat -> nat)
    (ts : list (task World)) (s : sys World) :
  (total_work ts <= fuel)%nat ->
  exists ts' s' fin,
    run_loop fuel pick ts s = (ts', s')
    /\ count_pending ts' = 0%nat
    /\ calls s' = calls s
    /\ errors s' = errors s
    /\ finished s' = finished s ++ fin
    /\ fin.*1 ≡ₚ pending_handlers ts.
Proof.
  revert ts s. induction fuel as [|f IH]; intros ts s Hfuel.
  - exists ts, s, []. cbn [run_loop]. rewrite app_nil_r.
    assert (Hnone : count_pending ts = 0%nat).
    { destruct (count_pending ts) as [|k] eqn:E; [done|].
      destruct (resume_nth_spec 0 ts s ltac:(lia)) as (? & ? & ? & _ & Hw & _).
      lia. }
    repeat split; try done.
    unfold count_pending in Hnone. unfold pending_handlers.
    apply nil_length_inv in Hnone. by rewrite Hnone.
  - cbn [run_loop]. destruct (count_pending ts) as [|k] eqn:E.
    + exists ts, s, []. rewrite app_nil_r. repeat split; try done.
      unfold count_pending in E. unfold pending_handlers.
      apply nil_length_inv in E. by rewrite E.
    + assert (Hpick : (pick f `mod` S k < count_pending ts)%nat).
      { rewrite E. apply Nat.mod_upper_bound. lia. }
      destruct (resume_nth_spec _ ts s Hpick)
        as (ts1 & s1 & fin1 & Hr & Hw & Hc & He & Hf & Hfin).
      rewrite Hr.
      destruct (IH ts1 s1 ltac:(lia))
        as (ts' & s' & fin & Hrun & Hnone & Hc' & He' & Hf' & Hfin').
      exists ts', s', (fin1 ++ fin). rewrite Hrun.
      repeat split; try congruence.
      * by rewrite Hf', Hf, app_assoc.
      * by rewrite fmap_app, Hfin', Hfin.
Qed.

Lemma pending_handlers_all (ts : list (task World)) :
  Forall (fun t => pending t = true) ts ->
  pending_handlers ts = task_handler <$> ts.
Proof.
  intros H. unfold pending_handlers. f_equal.
  induction H as [|t ts Ht _ IH]; [done|].
  rewrite filter_cons. case_decide; [by rewrite IH | done].
Qed.

(** *** [post] and [post_async] as a whole *)

Lemma post_spec (bus : t) (ev : event) (s : sys World) :
  exists s' fin,
    post sem bus ev s = (Ok tt, s')
    /\ calls s' = calls s
         ++ ((fun h => (h, ev)) <$> get (_subscribers bus) (type_of ev))
    /\ finished s' = finished s ++ fin
    /\ fin.*1 = get (_subscribers bus) (type_of ev)
    /\ errors s' = errors s ++ logged "Error in subscriber" (raised fin).
Proof. unfold post. apply sync_loop_spec. Qed.

Lemma post_async_spec (bus : t) (pick : nat -> nat) (ev : event)
    (s : sys World) :
  exists s' fin_sync fin_create fin_tasks,
    post_async sem bus pick ev s = (Ok tt, s')
    /\ calls s' = calls s
         ++ ((fun h => (h, ev)) <$>
               (get (_subscribers bus) (type_of ev)
                  ++ get (_async_subscribers bus) (type_of ev)))
    /\ finished s' = finished s ++ fin_sync ++ fin_create ++ fin_tasks
    /\ fin_sync.*1 = get (_subscribers bus) (type_of ev)
    /\ fin_create.*1 ++ fin_tasks.*1
       ≡ₚ get (_async_subscribers bus) (type_of ev)
    /\ Forall (fun hr => is_ok hr.2 = false) fin_create
    /\ errors s' = errors s
         ++ logged "Error in sync subscriber" (raised fin_sync)
         ++ logged "Error creating task for async subscriber"
              (raised fin_create).
Proof.
  unfold post_async.
  set (sync := get (_subscribers bus) (type_of ev)).
  set (async := get (_async_subscribers bus) (type_of ev)).
  destruct (sync_loop_spec "Error in sync subscriber" sync ev s)
    as (s1 & fin_sync & Hrun1 & Hc1 & Hf1 & Hh1 & He1).
  unfold bind at 1. rewrite Hrun1.
  destruct async as [|a async'] eqn:Easync.
  - exists s1, fin_sync, [], []. cbn [ret fmap list_fmap app].
    rewrite !app_nil_r.
    repeat split; first [done | by rewrite Hf1 | by rewrite He1].
  - destruct (create_tasks_spec (a :: async') ev [] s1)
      as (s2 & new & fin_create & Hrun2 & Hc2 & Hf2 & Hp2 & Hperm2 & Hfail2 & He2).
    unfold bind at 1. rewrite Hrun2. cbn [app].
    assert (Hcalls : calls s2 = calls s
              ++ ((fun h => (h, ev)) <$> (sync ++ a :: async'))).
    { by rewrite Hc2, Hc1, fmap_app, app_assoc. }
    destruct new as [|t new'] eqn:Enew.
    + exists s2, fin_sync, fin_create, []. cbn [ret fmap list_fmap].
      rewrite !app_nil_r. rewrite app_nil_r in Hperm2.
      repeat split;
        first [done | by rewrite Hf2, Hf1, app_assoc
              | by rewrite He2, He1, app_assoc].
    + unfold bind at 1. unfold gather.
      destruct (run_loop_spec (total_work (t :: new')) pick (t :: new') s2
                  ltac:(lia))
        as (ts' & s3 & fin_tasks & Hrun3 & Hnone & Hc3 & He3 & Hf3 & Hfin3).
      rewrite Hrun3. cbn [ret].
      exists s3, fin_sync, fin_create, fin_tasks.
      repeat split;
        first [done | by rewrite Hc3 | by rewrite Hf3, Hf2, Hf1, !app_assoc
              | by rewrite He3, He2, He1, app_assoc | idtac].
      rewrite Hfin3, pending_handlers_all by done. exact Hperm2.
Qed.

End DispatchFacts.

(* ===================================================================== *)
(** * The event bus: the registry                                        *)
(* ===================================================================== *)

Section RegistryFacts.
Import EventBus.

Lemma get_append k m d k' :
  get (append k m d) k' = if decide (k = k') then get d k ++ [m] else get d k'.
Proof.
  unfold get at 1, append. case_decide as Hk.
  - subst. by rewrite lookup_insert_eq.
  - by rewrite lookup_insert_ne.
Qed.

Lemma get_discard k m d k' :
  get (discard k m d) k'
  = if decide (k = k') then remove_first m (get d k) else get d k'.
Proof.
  unfold get at 1, discard. case_decide as Hk.
  - subst. by rewrite lookup_insert_eq.
  - by rewrite lookup_insert_ne.
Qed.

(** ** [list.remove] *)

Lemma remove_first_sublist m l : remove_first m l `sublist_of` l.
Proof.
  induction l as [|x l IH]; cbn; [done|].
  case_decide; [by apply sublist_cons | by apply sublist_skip].
Qed.

Lemma remove_first_absent m l : m ∉ l -> remove_first m l = l.
Proof.
  induction l as [|x l IH]; cbn; [done|]. intros Hm.
  apply not_elem_of_cons in Hm as [Hne Hl].
  case_decide; [done | by rewrite IH].
Qed.

Lemma remove_first_gone m l : NoDup l -> m ∉ remove_first m l.
Proof.
  induction l as [|x l IH]; cbn; [intros _; apply not_elem_of_nil|].
  intros [Hx Hl]%NoDup_cons. case_decide as Hm.
  - by subst.
  - apply not_elem_of_cons. split; [done | by apply IH].
Qed.

(** ** [register] *)

Lemma register_method_get (s : subscriber) (f : method) (bus : t)
    (k : event_class) :
  get (_subscribers (register_method s bus f)) k
  = get (_subscribers bus) k
      ++ (mk_bound s <$>
            filter (fun f => event_type f = k /\ iscoroutinefunction f = false) [f])
  /\ get (_async_subscribers (register_method s bus f)) k
     = get (_async_subscribers bus) k
         ++ (mk_bound s <$>
               filter (fun f => event_type f = k /\ iscoroutinefunction f = true) [f]).
Proof.
  unfold register_method. rewrite !filter_cons, !filter_nil.
  destruct (iscoroutinefunction f) eqn:Hco;
    cbn [_subscribers _async_subscribers]; rewrite get_append.
  - rewrite (decide_False (P := _ /\ true = false)) by (by intros [_ ?]).
    rewrite app_nil_r. split; [done|].
    destruct (decide (event_type f = k)) as [Hk|Hk].
    + subst k. by rewrite decide_True.
    + rewrite decide_False by (by intros [? _]). by rewrite app_nil_r.
  - rewrite (decide_False (P := _ /\ false = true)) by (by intros [_ ?]).
    rewrite app_nil_r. split; [|done].
    destruct (decide (event_type f = k)) as [Hk|Hk].
    + subst k. by rewrite decide_True.
    + rewrite decide_False by (by intros [? _]). by rewrite app_nil_r.
Qed.

(** What [register] leaves under [k] in each group: the handlers that
    were there, followed by those of the subscriber, in [dir] order. *)
Lemma register_methods_get (s : subscriber) (ms : list method) (bus : t)
    (k : event_class) :
  get (_subscribers (foldl (register_method s) bus ms)) k
  = get (_subscribers bus) k
      ++ (mk_bound s <$>
            filter (fun f => event_type f = k /\ iscoroutinefunction f = false) ms)
  /\ get (_async_subscribers (foldl (register_method s) bus ms)) k
     = get (_async_subscribers bus) k
         ++ (mk_bound s <$>
               filter (fun f => event_type f = k /\ iscoroutinefunction f = true) ms).
Proof.
  revert bus. induction ms as [|f ms IH]; intros bus.
  - cbn. by rewrite !app_nil_r.
  - cbn [foldl]. destruct (IH (register_method s bus f)) as [IH1 IH2].
    destruct (register_method_get s f bus k) as [H1 H2].
    rewrite IH1, IH2, H1, H2.
    change (f :: ms) with ([f] ++ ms).
    by rewrite !filter_app, !fmap_app, !app_assoc.
Qed.

Lemma register_get (s : subscriber) (bus : t) (k : event_class) :
  get (_subscribers (register s bus)) k
  = get (_subscribers bus) k ++ handlers_for false k s
  /\ get (_async_subscribers (register s bus)) k
     = get (_async_subscribers bus) k ++ handlers_for true k s.
Proof. apply register_methods_get. Qed.

(** ** [unregister] *)

Lemma unregister_methods_get (s : subscriber) (ms : list method) (bus : t)
    (k : event_class) :
  get (_subscribers (foldl (unregister_method s) bus ms)) k
  = removals s k (get (_subscribers bus) k) ms
  /\ get (_async_subscribers (foldl (unregister_method s) bus ms)) k
     = removals s k (get (_async_subscribers bus) k) ms.
Proof.
  revert bus. induction ms as [|f ms IH]; intros bus; [done|].
  cbn [foldl removals]. destruct (IH (unregister_method s bus f)) as [IH1 IH2].
  unfold removals in *. rewrite IH1, IH2.
  unfold unregister_method. cbn [_subscribers _async_subscribers].
  rewrite !get_discard. cbn [foldl]. by case_decide; subst.
Qed.

Lemma unregister_get (s : subscriber) (bus : t) (k : event_class) :
  get (_subscribers (unregister s bus)) k
  = removals s k (get (_subscribers bus) k) (tagged_methods s)
  /\ get (_async_subscribers (unregister s bus)) k
     = removals s k (get (_async_subscribers bus) k) (tagged_methods s).
Proof. apply unregister_methods_get. Qed.

Lemma removals_sublist s k l ms : removals s k l ms `sublist_of` l.
Proof.
  revert l. induction ms as [|f ms IH]; intros l; [done|].
  cbn [removals foldl]. etrans; [apply IH|].
  case_decide; [apply remove_first_sublist | done].
Qed.

Lemma removals_absent s k l ms :
  (forall h, h ∈ l -> im_self h <> s) -> removals s k l ms = l.
Proof.
  intros Hl. induction ms as [|f ms IH]; [done|].
  cbn [removals foldl]. case_decide; [|exact IH].
  rewrite remove_first_absent; [exact IH|].
  intros Hin. by apply (Hl _ Hin).
Qed.

Lemma removals_gone s k l ms f :
  NoDup l -> f ∈ ms -> event_type f = k -> mk_bound s f ∉ removals s k l ms.
Proof.
  revert l. induction ms as [|f0 ms IH]; intros l Hnd Hin Hk.
  - by apply elem_of_nil in Hin.
  - cbn [removals foldl]. apply elem_of_cons in Hin as [->|Hin].
    + rewrite decide_True by done.
      intros Hbad.
      apply (fun H => elem_of_sublist _ _ _ H (removals_sublist s k _ ms)) in Hbad.
      by apply (remove_first_gone (mk_bound s f0) l Hnd).
    + apply IH; [|done..].
      case_decide; [|done].
      eapply sublist_NoDup; [done | apply remove_first_sublist].
Qed.

(** ** Invariants of the registry *)

Lemma elem_of_handlers_for h a k s :
  h ∈ handlers_for a k s
  <-> exists f, h = mk_bound s f /\ f ∈ tagged_methods s
                /\ event_type f = k /\ iscoroutinefunction f = a.
Proof.
  unfold handlers_for. rewrite list_elem_of_fmap.
  split; intros (f & Hf1 & Hf2); exists f.
  - apply list_elem_of_filter in Hf2. naive_solver.
  - split; [done|]. apply list_elem_of_filter. naive_solver.
Qed.

Lemma get_new nm k :
  get (_subscribers (new nm)) k = [] /\ get (_async_subscribers (new nm)) k = [].
Proof. done. Qed.

Lemma keyed_new nm : keyed (new nm).
Proof.
  intros k h. destruct (get_new nm k) as [-> ->].
  intros [H|H]; by apply elem_of_nil in H.
Qed.

Lemma keyed_register s bus : keyed bus -> keyed (register s bus).
Proof.
  intros Hk k h. destruct (register_get s bus k) as [-> ->].
  rewrite !elem_of_app, !elem_of_handlers_for.
  intros [[H|H]|[H|H]]; try (apply (Hk k h); tauto); naive_solver.
Qed.

Lemma keyed_unregister s bus : keyed bus -> keyed (unregister s bus).
Proof.
  intros Hk k h. destruct (unregister_get s bus k) as [-> ->].
  intros [H|H]; apply (Hk k h); [left|right];
    by eapply elem_of_sublist, removals_sublist.
Qed.

Lemma keyed_run_ops ops bus : keyed bus -> keyed (run_ops ops bus).
Proof.
  revert bus. induction ops as [|[s|s] ops IH]; intros bus Hk; [done|..];
    apply IH; [by apply keyed_register | by apply keyed_unregister].
Qed.

Lemma registry_inv_new nm : registry_inv [] (new nm).
Proof.
  intros k. destruct (get_new nm k) as [-> ->].
  repeat split; try apply NoDup_nil_2;
    destruct H as [H|H]; by apply elem_of_nil in H.
Qed.

Lemma NoDup_handlers_for a k s :
  NoDup (tagged_methods s) -> NoDup (handlers_for a k s).
Proof.
  intros Hnd. unfold handlers_for. apply NoDup_fmap_2.
  - by intros f1 f2 [= ->].
  - by apply NoDup_filter.
Qed.

Lemma registry_inv_register live s bus :
  registry_inv live bus ->
  s ∉ live ->
  NoDup (tagged_methods s) ->
  registry_inv (s :: live) (register s bus).
Proof.
  intros Hinv Hs Hnd k. destruct (Hinv k) as (Hn1 & Hn2 & Hmem).
  destruct (register_get s bus k) as [-> ->].
  assert (Hfresh : forall a h,
            h ∈ get (_subscribers bus) k \/ h ∈ get (_async_subscribers bus) k ->
            h ∉ handlers_for a k s).
  { intros a h Hin Hnew. apply elem_of_handlers_for in Hnew as (f & -> & _).
    destruct (Hmem _ Hin) as (Hlive & _). by apply Hs. }
  repeat split.
  - apply NoDup_app. repeat split; [done| |by apply NoDup_handlers_for].
    intros h Hin. apply Hfresh. by left.
  - apply NoDup_app. repeat split; [done| |by apply NoDup_handlers_for].
    intros h Hin. apply Hfresh. by right.
  - rewrite !elem_of_app, !elem_of_handlers_for in H.
    destruct H as [[H|H]|[H|H]];
      [destruct (Hmem h (or_introl H)) as (? & _); by apply list_elem_of_further
      | destruct H as (f & -> & _); by left
      | destruct (Hmem h (or_intror H)) as (? & _); by apply list_elem_of_further
      | destruct H as (f & -> & _); by left].
  - rewrite !elem_of_app, !elem_of_handlers_for in H.
    destruct H as [[H|H]|[H|H]];
      [by destruct (Hmem h (or_introl H)) as (_ & ? & _)
      | by destruct H as (f & -> & ? & _)
      | by destruct (Hmem h (or_intror H)) as (_ & ? & _)
      | by destruct H as (f & -> & ? & _)].
  - rewrite !elem_of_app, !elem_of_handlers_for in H.
    destruct H as [[H|H]|[H|H]];
      [by destruct (Hmem h (or_introl H)) as (_ & _ & ?)
      | by destruct H as (f & -> & _ & ? & _)
      | by destruct (Hmem h (or_intror H)) as (_ & _ & ?)
      | by destruct H as (f & -> & _ & ? & _)].
Qed.

Lemma registry_inv_unregister live s bus :
  registry_inv live bus ->
  registry_inv (filter (fun x => x <> s) live) (unregister s bus).
Proof.
  intros Hinv k. destruct (Hinv k) as (Hn1 & Hn2 & Hmem).
  destruct (unregister_get s bus k) as [-> ->].
  assert (Hold : forall h,
            h ∈ removals s k (get (_subscribers bus) k) (tagged_methods s)
            \/ h ∈ removals s k (get (_async_subscribers bus) k) (tagged_methods s) ->
            (h ∈ get (_subscribers bus) k \/ h ∈ get (_async_subscribers bus) k)
            /\ im_self h <> s).
  { intros h Hin. assert (Hin' : h ∈ get (_subscribers bus) k
                             \/ h ∈ get (_async_subscribers bus) k).
    { destruct Hin as [Hin|Hin]; [left|right];
        by eapply elem_of_sublist, removals_sublist. }
    split; [done|]. intros Heq.
    destruct (Hmem h Hin') as (_ & Hf & Hk).
    destruct h as [s' f]; cbn in *; subst s'.
    destruct Hin as [Hin|Hin]; revert Hin; by apply removals_gone. }
  repeat split.
  - eapply sublist_NoDup; [exact Hn1 | apply removals_sublist].
  - eapply sublist_NoDup; [exact Hn2 | apply removals_sublist].
  - destruct (Hold h H) as [Hin Hne]. apply list_elem_of_filter.
    split; [done|]. by destruct (Hmem h Hin) as (? & _).
  - destruct (Hold h H) as [Hin _]. by destruct (Hmem h Hin) as (_ & ? & _).
  - destruct (Hold h H) as [Hin _]. by destruct (Hmem h Hin) as (_ & _ & ?).
Qed.

Lemma NoDup_methods_of_names s :
  NoDup (method_name <$> tagged_methods s) -> NoDup (tagged_methods s).
Proof. apply NoDup_fmap_1. Qed.

Lemma registry_inv_run_ops ops live bus :
  registry_inv live bus ->
  disciplined live ops = true ->
  registry_inv (foldl track live ops) (run_ops ops bus).
Proof.
  revert live bus. induction ops as [|o ops IH]; intros live bus Hinv Hd; [done|].
  cbn [disciplined] in Hd. apply andb_prop in Hd as [Ha Hd].
  cbn [foldl run_ops]. apply IH; [|done].
  destruct o as [s|s]; cbn [track apply_op].
  - cbn [allowed] in Ha. apply andb_prop in Ha as [Hs Hn].
    apply bool_decide_eq_true in Hs. apply bool_decide_eq_true in Hn.
    apply registry_inv_register; [done..|by apply NoDup_methods_of_names].
  - by apply registry_inv_unregister.
Qed.

Lemma disciplined_app live ops1 ops2 :
  disciplined live (ops1 ++ ops2)
  = disciplined live ops1 && disciplined (foldl track live ops1) ops2.
Proof.
  revert live. induction ops1 as [|o ops1 IH]; intros live; [done|].
  cbn [app disciplined foldl]. by rewrite IH, andb_assoc.
Qed.

End RegistryFacts.

(* ===================================================================== *)
(** * C4, C5, C6, C7: the claims about the event bus                     *)
(* ===================================================================== *)

Section BusClaims.
Import EventBus.

(** C4.  Asynchronous publish fan-out.  With [N] synchronous and [M]
    concurrent handlers registered for the class of the event,
    [post_async] makes exactly [N + M] handler calls: the synchronous
    group first, in registration order, then the concurrent group;
    and when it returns, all [N + M] invocations have completed or
    failed, whatever the order in which the loop ran the tasks. *)
Theorem post_async_fan_out {World : Type} (sem : handler_semantics World)
    (bus : t) (pick : nat -> nat) (ev : event) (s : sys World) (N M : nat) :
  length (get (_subscribers bus) (type_of ev)) = N ->
  length (get (_async_subscribers bus) (type_of ev)) = M ->
  exists s' fin,
    post_async sem bus pick ev s = (Ok tt, s')
    /\ calls s' = calls s
         ++ ((fun h => (h, ev)) <$>
               (get (_subscribers bus) (type_of ev)
                  ++ get (_async_subscribers bus) (type_of ev)))
    /\ length (calls s') = (length (calls s) + (N + M))%nat
    /\ finished s' = finished s ++ fin
    /\ fin.*1 ≡ₚ get (_subscribers bus) (type_of ev)
                  ++ get (_async_subscribers bus) (type_of ev)
    /\ length fin = (N + M)%nat.
Proof.
  intros HN HM.
  destruct (post_async_spec sem bus pick ev s)
    as (s' & f1 & f2 & f3 & Hrun & Hc & Hf & Hh & Hperm & _ & _).
  exists s', (f1 ++ f2 ++ f3). split; [done|]. split; [done|].
  assert (Hfin : (f1 ++ f2 ++ f3).*1
                 ≡ₚ get (_subscribers bus) (type_of ev)
                      ++ get (_async_subscribers bus) (type_of ev)).
  { rewrite !fmap_app, Hh. by rewrite Hperm. }
  repeat split; try done.
  - rewrite Hc, length_app, length_fmap, length_app. lia.
  - rewrite <- (length_fmap fst), Hfin, length_app. lia.
Qed.

Lemma post_async_fan_out_witness :
  exists s' fin,
    post_async Samples.journal_semantics
      (register Samples.sinks (new "TestBus")) Samples.round_robin
      Samples.transfer_event Samples.quiet = (Ok tt, s')
    /\ length (calls s') = 5%nat
    /\ finished s' = fin
    /\ length fin = 5%nat.
Proof.
  destruct (post_async_fan_out Samples.journal_semantics
              (register Samples.sinks (new "TestBus")) Samples.round_robin
              Samples.transfer_event Samples.quiet 3 2)
    as (s' & fin & Hrun & _ & Hlen & Hfin & _ & Hn);
    [reflexivity | reflexivity |].
  exists s', fin. repeat split; assumption.
Defined.

(** C5, as the code has it.  Handler fault isolation.  On both paths a
    handler of the synchronous group that raises is caught and logged,
    and every handler of the group is still called, on this and on
    later publish calls.  On the asynchronous path a concurrent
    handler whose call raises is caught and logged; one that raises
    inside its task is caught by the gather and leaves no log record;
    in either case every concurrent handler is still called and every
    task still runs to its own end. *)
Theorem handler_fault_isolation {World : Type} (sem : handler_semantics World)
    (bus : t) (pick : nat -> nat) (ev later : event) (s : sys World) :
  (exists s' fin,
     post sem bus ev s = (Ok tt, s')
     /\ calls s' = calls s
          ++ ((fun h => (h, ev)) <$> get (_subscribers bus) (type_of ev))
     /\ finished s' = finished s ++ fin
     /\ fin.*1 = get (_subscribers bus) (type_of ev)
     /\ errors s' = errors s ++ logged "Error in subscriber" (raised fin)
     /\ exists s'',
          post sem bus later s' = (Ok tt, s'')
          /\ calls s'' = calls s'
               ++ ((fun h => (h, later)) <$>
                     get (_subscribers bus) (type_of later)))
  /\ (exists s' fin_sync fin_create fin_tasks,
        post_async sem bus pick ev s = (Ok tt, s')
        /\ calls s' = calls s
             ++ ((fun h => (h, ev)) <$>
                   (get (_subscribers bus) (type_of ev)
                      ++ get (_async_subscribers bus) (type_of ev)))
        /\ finished s' = finished s ++ fin_sync ++ fin_create ++ fin_tasks
        /\ fin_sync.*1 = get (_subscribers bus) (type_of ev)
        /\ fin_create.*1 ++ fin_tasks.*1
           ≡ₚ get (_async_subscribers bus) (type_of ev)
        /\ Forall (fun hr => is_ok hr.2 = false) fin_create
        /\ errors s' = errors s
             ++ logged "Error in sync subscriber" (raised fin_sync)
             ++ logged "Error creating task for async subscriber"
                  (raised fin_create)
        /\ exists s'',
             post_async sem bus pick later s' = (Ok tt, s'')
             /\ calls s'' = calls s'
                  ++ ((fun h => (h, later)) <$>
                        (get (_subscribers bus) (type_of later)
                           ++ get (_async_subscribers bus) (type_of later)))).
Proof.
  split.
  - destruct (post_spec sem bus ev s) as (s' & fin & Hrun & Hc & Hf & Hh & He).
    destruct (post_spec sem bus later s') as (s'' & ? & Hrun' & Hc' & _).
    exists s', fin. repeat split; try done. by exists s''.
  - destruct (post_async_spec sem bus pick ev s)
      as (s' & f1 & f2 & f3 & Hrun & Hc & Hf & Hh & Hperm & Hfail & He).
    destruct (post_async_spec sem bus pick later s')
      as (s'' & ? & ? & ? & Hrun' & Hc' & _).
    exists s', f1, f2, f3. repeat split; try done. by exists s''.
Qed.

(** C5, as claimed, fails: the task of [on_x] raises, the call
    returns normally, and the error log stays empty. *)
Lemma task_failure_is_not_logged :
  exists s',
    post_async Samples.journal_semantics
      (register Samples.watchers (new "TestBus")) Samples.round_robin
      Samples.transfer_event Samples.quiet = (Ok tt, s')
    /\ raised (finished s')
       = [(mk_bound Samples.watchers
             (mk_method "on_x" cls_ERC20TransferEvent true),
           Web3Error "sink closed")]
    /\ errors s' = [].
Proof. eexists. split; [vm_compute; reflexivity|]. split; reflexivity. Qed.

(** C6.  [post] dispatches on the exact class of the event: on a bus
    built by any calls of [register] and [unregister], it calls
    precisely the handlers filed under [type(event)], in the order
    [register] appended them; a handler tagged with another class, a
    base class included, is not among them; with no subscriber for
    the class nothing happens and nothing is raised. *)
Theorem post_dispatches_on_exact_class {World : Type}
    (sem : handler_semantics World) (ops : list op) (nm : string)
    (ev : event) (s : sys World) :
  let bus := run_ops ops (new nm) in
  exists s',
    post sem bus ev s = (Ok tt, s')
    /\ calls s' = calls s
         ++ ((fun h => (h, ev)) <$> get (_subscribers bus) (type_of ev))
    /\ (forall h, event_type (im_func h) <> type_of ev ->
                  h ∉ get (_subscribers bus) (type_of ev))
    /\ (forall sub k,
          get (_subscribers (register sub bus)) k
          = get (_subscribers bus) k ++ handlers_for false k sub)
    /\ (get (_subscribers bus) (type_of ev) = [] -> s' = s).
Proof.
  intros bus.
  destruct (post_spec sem bus ev s) as (s' & fin & Hrun & Hc & _).
  exists s'. repeat split; try done.
  - intros h Hne Hin. apply Hne.
    apply (keyed_run_ops ops (new nm) (keyed_new nm) (type_of ev) h).
    by left.
  - intros sub k. by destruct (register_get sub bus k).
  - intros Hnone. unfold post in Hrun. rewrite Hnone in Hrun.
    cbn in Hrun. by injection Hrun.
Qed.

(** A handler tagged with the base class sees no transfer: the state
    after the call is the state before it. *)
Lemma base_class_handler_is_not_called :
  issubclass cls_ERC20TransferEvent cls_EthereumEvent = true
  /\ post Samples.journal_semantics
       (register Samples.auditor (new "TestBus"))
       Samples.transfer_event Samples.quiet
     = (Ok tt, Samples.quiet).
Proof. split; reflexivity. Qed.

(** One subscriber, one handler, one event: the scenario of the
    pipeline's own test. *)
Lemma registered_handler_receives_the_event :
  let h := mk_method "handle_transfer" cls_ERC20TransferEvent false in
  let handler := mk_subscriber 7 "TestHandler" [h] in
  exists s',
    post Samples.journal_semantics (register handler (new "TestBus"))
      Samples.transfer_event Samples.quiet = (Ok tt, s')
    /\ calls s' = [(mk_bound handler h, Samples.transfer_event)]
    /\ world s' = ["handle_transfer"].
Proof. eexists. split; [reflexivity|]. split; reflexivity. Qed.

(** C7, as claimed, fails: registering one subscriber twice files each
    of its handlers twice. *)
Lemma register_twice_files_duplicates :
  let on_any := mk_bound Samples.auditor
                  (mk_method "on_any" cls_EthereumEvent false) in
  let bus := run_ops [Register Samples.auditor; Register Samples.auditor]
               (new "EventBus") in
  get (_subscribers bus) cls_EthereumEvent = [on_any; on_any]
  /\ ~ NoDup (get (_subscribers bus) cls_EthereumEvent).
Proof.
  split; [reflexivity|].
  intros Hnd. apply NoDup_cons in Hnd as [Hnot _].
  apply Hnot. by left.
Qed.

(** C7, as the code has it.  Registration uniqueness.  After any
    sequence of [register] and [unregister] calls in which [register]
    is never applied to a subscriber that is still registered, no
    handler appears more than once in either group of the registry;
    registering again after [unregister] stays within that discipline;
    and [unregister] of a subscriber none of whose handlers is filed
    changes no handler list. *)
Theorem registry_unique_under_discipline (ops : list op) (nm : string) :
  disciplined [] ops = true ->
  let bus := run_ops ops (new nm) in
  (forall k, NoDup (get (_subscribers bus) k)
             /\ NoDup (get (_async_subscribers bus) k))
  /\ (forall s, NoDup (method_name <$> tagged_methods s) ->
                disciplined [] (ops ++ [Unregister s; Register s]) = true)
  /\ (forall s,
        (forall k h, h ∈ get (_subscribers bus) k
                     \/ h ∈ get (_async_subscribers bus) k -> im_self h <> s) ->
        forall k,
          get (_subscribers (unregister s bus)) k = get (_subscribers bus) k
          /\ get (_async_subscribers (unregister s bus)) k
             = get (_async_subscribers bus) k).
Proof.
  intros Hd bus.
  pose proof (registry_inv_run_ops ops [] (new nm) (registry_inv_new nm) Hd)
    as Hinv.
  repeat split.
  - by destruct (Hinv k) as (? & _).
  - by destruct (Hinv k) as (_ & ? & _).
  - intros s Hs. rewrite disciplined_app, Hd. cbn.
    rewrite !andb_true_r. apply andb_true_intro. split.
    + apply bool_decide_eq_true. intros Hin.
      apply list_elem_of_filter in Hin as [Hne _]. by apply Hne.
    + by apply bool_decide_eq_true.
  - destruct (unregister_get s bus k) as [-> _].
    apply removals_absent. intros h Hin. apply (H k). by left.
  - destruct (unregister_get s bus k) as [_ ->].
    apply removals_absent. intros h Hin. apply (H k). by right.
Qed.

Lemma registry_unique_under_discipline_witness :
  NoDup (get (_subscribers
                (run_ops [Register Samples.sinks; Unregister Samples.sinks;
                          Register Samples.sinks; Register Samples.auditor]
                   (new "EventBus"))) cls_ERC20TransferEvent)
  /\ NoDup (get (_async_subscribers
                   (run_ops [Register Samples.sinks; Unregister Samples.sinks;
                             Register Samples.sinks; Register Samples.auditor]
                      (new "EventBus"))) cls_ERC20TransferEvent).
Proof.
  apply (registry_unique_under_discipline
           [Register Samples.sinks; Unregister Samples.sinks;
            Register Samples.sinks; Register Samples.auditor] "EventBus").
  vm_compute. reflexivity.
Defined.

(** After two [register] calls one [unregister] is not enough: it
    removes one occurrence and the handler is still called. *)
Lemma unregister_removes_one_occurrence :
  let on_any := mk_bound Samples.auditor
                  (mk_method "on_any" cls_EthereumEvent false) in
  get (_subscribers
         (run_ops [Register Samples.auditor; Register Samples.auditor;
                   Unregister Samples.auditor] (new "EventBus")))
      cls_EthereumEvent = [on_any].
Proof. reflexivity. Qed.

End BusClaims.

(* ===================================================================== *)
(** * The listener                                                       *)
(* ===================================================================== *)

Section ListenerFacts.
Import EventListenerService.
Context {World : Type} (sem : handler_semantics World) (web3 : node World).

(** A [Transfer] log with fewer than three topics makes the decoder
    raise. *)
Lemma short_transfer_raises (log : LogReceipt.t) (contract : ContractConfig.t)
    (ts : datetime) :
  (length (LogReceipt.topics log) < 3)%nat ->
  exists e, _create_erc20_transfer_event web3 log contract ts = Raise e.
Proof.
  intros Hlen. unfold _create_erc20_transfer_event.
  destruct (LogReceipt.topics log) as [|t0 [|t1 [|t2 rest]]];
    cbn [index lookup list_lookup rbind]; [by eexists..| |cbn in Hlen; lia].
  destruct (to_checksum_address web3 (last_n 20 t1)); cbn [rbind]; by eexists.
Qed.

Lemma decode_short_transfer (log : LogReceipt.t) (contract : ContractConfig.t)
    (event_config : EventConfig.t) (ts : datetime) (sig : bytes) :
  LogReceipt.topics log !! 0%nat = Some sig ->
  hexbytes_hex sig = EventSignatures.ERC20_TRANSFER ->
  (length (LogReceipt.topics log) < 3)%nat ->
  exists e, decode web3 log contract event_config ts = Raise e.
Proof.
  intros Hsig Hhex Hlen. unfold decode.
  rewrite (index_lookup _ _ _ Hsig). cbn [rbind]. rewrite Hhex.
  rewrite String.eqb_refl.
  destruct (short_transfer_raises log contract ts Hlen) as [e ->].
  by exists e.
Qed.

(** Whatever the decoder raises, [_handle_log_event] logs it and
    publishes nothing. *)
Lemma handle_undecodable (self : t) (pick : nat -> nat) (log : LogReceipt.t)
    (contract : ContractConfig.t) (event_config : EventConfig.t)
    (s : sys World) :
  (forall ts, exists e, decode web3 log contract event_config ts = Raise e) ->
  exists s' e,
    _handle_log_event sem web3 self pick log contract event_config s
    = (Ok tt, s')
    /\ calls s' = calls s
    /\ finished s' = finished s
    /\ errors s' = errors s ++ [mk_log "Error handling log event" None e].
Proof.
  intros Hdec. unfold _handle_log_event, try_except.
  unfold bind at 1. unfold lift_world at 1.
  destruct (get_block_timestamp web3 (LogReceipt.blockNumber log) (world s))
    as [[ts|e] w] eqn:Hts.
  - unfold bind at 1. unfold lift_result at 1.
    destruct (Hdec ts) as [e ->]. unfold log_error.
    eexists _, e. cbn. repeat split.
  - unfold log_error. eexists _, e. cbn. repeat split.
Qed.

(** ** [stop_listening] *)

Lemma uninstall_loop_spec (ws : bool) (fs : list filter_info) (s : sys World) :
  exists s' errs,
    for_each fs (fun filter_info =>
      try_except
        (if ws
         then lift_world (uninstall_filter web3 (filter_id (filter filter_info))) ;;;
              ret tt
         else ret tt)
        (fun e => log_error "Error uninstalling filter" None e)) s
    = (Ok tt, s')
    /\ calls s' = calls s
    /\ finished s' = finished s
    /\ errors s' = errors s ++ errs
    /\ Forall (fun r => message r = "Error uninstalling filter") errs
    /\ (length errs <= length fs)%nat.
Proof.
  revert s. induction fs as [|f fs IH]; intros s.
  - exists s, []. cbn. rewrite app_nil_r. repeat split; [constructor | lia].
  - cbn [for_each]. unfold bind at 1. unfold try_except at 1.
    destruct ws.
    + unfold bind at 1. unfold lift_world at 1.
      destruct (uninstall_filter web3 (filter_id (filter f)) (world s))
        as [[b|e] w] eqn:Hun.
      * cbn [ret].
        match goal with |- context [for_each fs ?body ?s0] =>
          destruct (IH s0) as (s' & errs & Hrun & Hc & Hf & He & Hall & Hlen) end.
        exists s', errs. rewrite Hrun. cbn in *.
        repeat split; try done. lia.
      * unfold log_error at 1.
        match goal with |- context [for_each fs ?body ?s0] =>
          destruct (IH s0) as (s' & errs & Hrun & Hc & Hf & He & Hall & Hlen) end.
        exists s', (mk_log "Error uninstalling filter" None e :: errs).
        rewrite Hrun. cbn in *. rewrite He, <- app_assoc.
        repeat split; try done; [by constructor | lia].
    + cbn [ret].
      destruct (IH s) as (s' & errs & Hrun & Hc & Hf & He & Hall & Hlen).
      exists s', errs. rewrite Hrun. repeat split; try done. cbn. lia.
Qed.

(** The same loop, exactly: what it logs and what it leaves of the
    world. *)
Lemma uninstall_loop_exact (ws : bool) (fs : list filter_info) (s : sys World) :
  exists s',
    for_each fs (fun filter_info =>
      try_except
        (if ws
         then lift_world (uninstall_filter web3 (filter_id (filter filter_info))) ;;;
              ret tt
         else ret tt)
        (fun e => log_error "Error uninstalling filter" None e)) s
    = (Ok tt, s')
    /\ errors s'
       = errors s
           ++ (if ws
               then mk_log "Error uninstalling filter" None
                      <$> (uninstall_failures web3 fs (world s)).1
               else [])
    /\ world s' = (if ws then (uninstall_failures web3 fs (world s)).2
                   else world s).
Proof.
  revert s. induction fs as [|f fs IH]; intros s.
  - exists s. cbn. destruct ws; by rewrite app_nil_r.
  - cbn [for_each uninstall_failures]. unfold bind at 1. unfold try_except at 1.
    destruct ws.
    + unfold bind at 1. unfold lift_world at 1.
      destruct (uninstall_filter web3 (filter_id (filter f)) (world s))
        as [[b|e] w] eqn:Hun.
      * cbn [ret].
        match goal with |- context [for_each fs ?body ?s0] =>
          destruct (IH s0) as (s' & Hrun & He & Hw) end.
        exists s'. rewrite Hrun. cbn [world errors] in He, Hw.
        destruct (uninstall_failures web3 fs w) as [failures w2].
        by repeat split.
      * unfold log_error at 1.
        match goal with |- context [for_each fs ?body ?s0] =>
          destruct (IH s0) as (s' & Hrun & He & Hw) end.
        exists s'. rewrite Hrun. cbn [world errors] in He, Hw.
        destruct (uninstall_failures web3 fs w) as [failures w2].
        cbn [fst snd fmap list_fmap] in *. rewrite He, <- app_assoc.
        by repeat split.
    + cbn [ret].
      destruct (IH s) as (s' & Hrun & He & Hw).
      exists s'. rewrite Hrun. by repeat split.
Qed.

End ListenerFacts.

(* ===================================================================== *)
(** * C3, C10: the claims about the listener                             *)
(* ===================================================================== *)

Section ListenerClaims.
Import EventListenerService.

(** C3 (the code departs from it).  The Uniswap decoders never look at
    the payload: whenever they produce an event, every
    protocol-specific field is the literal [0] or ["0x0"]; nothing in
    the event tells an undecoded field from a decoded zero. *)
Theorem uniswap_fields_are_zero_placeholders {World : Type}
    (web3 : node World) (log : LogReceipt.t) (contract : ContractConfig.t)
    (ts : datetime) :
  match _create_uniswap_swap_event web3 log contract ts with
  | Ok ev =>
      UniswapSwapEvent.amount_0 ev = 0
      /\ UniswapSwapEvent.amount_1 ev = 0
      /\ UniswapSwapEvent.sqrt_price_x96 ev = 0
      /\ UniswapSwapEvent.liquidity ev = 0
      /\ UniswapSwapEvent.tick ev = 0
  | Raise _ => True
  end
  /\ (exists ev,
        _create_uniswap_initialize_event log contract ts = Ok ev
        /\ UniswapInitializeEvent.currency0 ev = "0x0"
        /\ UniswapInitializeEvent.currency1 ev = "0x0"
        /\ UniswapInitializeEvent.fee ev = 0
        /\ UniswapInitializeEvent.tick_spacing ev = 0
        /\ UniswapInitializeEvent.hooks ev = "0x0")
  /\ match _create_uniswap_modify_liquidity_event web3 log contract ts with
     | Ok ev =>
         UniswapModifyLiquidityEvent.tick_lower ev = 0
         /\ UniswapModifyLiquidityEvent.tick_upper ev = 0
         /\ UniswapModifyLiquidityEvent.liquidity_delta ev = 0
     | Raise _ => True
     end.
Proof.
  unfold _create_uniswap_swap_event, _create_uniswap_initialize_event,
    _create_uniswap_modify_liquidity_event.
  destruct (sender_of web3 (LogReceipt.topics log)); cbn [rbind];
    repeat split; eexists; repeat split.
Qed.

(** The swap decoder on a log whose payload is not zero. *)
Lemma swap_with_payload_decodes_to_zeros :
  exists ev,
    _create_uniswap_swap_event Samples.quiet_node
      (Samples.log_with
         [Samples.swap_sig; Samples.transfer_sig; pad20 Samples.alice]
         (be_encode 32 7 ++ be_encode 32 9 ++ be_encode 32 11
            ++ be_encode 32 13 ++ be_encode 32 15))
      Samples.usdc 1700000000 = Ok ev
    /\ UniswapSwapEvent.sender ev = hexbytes_hex Samples.alice
    /\ UniswapSwapEvent.amount_0 ev = 0
    /\ UniswapSwapEvent.amount_1 ev = 0
    /\ UniswapSwapEvent.sqrt_price_x96 ev = 0
    /\ UniswapSwapEvent.liquidity ev = 0
    /\ UniswapSwapEvent.tick ev = 0.
Proof. eexists. split; [reflexivity|]. repeat split. Qed.

(** C10.  [stop_listening] never raises and leaves no active filter.
    Every failure to uninstall a filter is logged: the error log
    grows by exactly one ["Error uninstalling filter"] record for each
    filter whose removal the node refuses, in the order of the
    filters and with the exception the node raised, and by nothing
    else; the node is asked once for every filter, failures
    notwithstanding.  Calling it again changes nothing, and so does
    calling it on a service that never started listening. *)
Theorem stop_listening_idempotent {World : Type} (web3 : node World)
    (self : t) (s : sys World) :
  let stopped := mk (contracts self) (event_bus self) (web3_ws self) [] in
  let answers := uninstall_failures web3 (active_filters self) (world s) in
  (exists s' errs,
     stop_listening web3 self s = (Ok stopped, s')
     /\ active_filters stopped = []
     /\ calls s' = calls s
     /\ finished s' = finished s
     /\ errors s' = errors s ++ errs
     /\ errs = (if web3_ws self
                then mk_log "Error uninstalling filter" None <$> answers.1
                else [])
     /\ world s' = (if web3_ws self then answers.2 else world s)
     /\ Forall (fun r => message r = "Error uninstalling filter") errs
     /\ (length errs <= length (active_filters self))%nat
     /\ stop_listening web3 stopped s' = (Ok stopped, s'))
  /\ (forall bus ws cs,
        stop_listening web3 (init bus ws cs) s = (Ok (init bus ws cs), s)).
Proof.
  intros stopped answers. split; [|reflexivity].
  unfold stop_listening at 1. unfold bind at 1.
  destruct (uninstall_loop_spec web3 (web3_ws self) (active_filters self) s)
    as (s' & errs & Hrun & Hc & Hf & He & Hall & Hlen).
  destruct (uninstall_loop_exact web3 (web3_ws self) (active_filters self) s)
    as (s2 & Hrun2 & He2 & Hw2).
  rewrite Hrun in Hrun2. injection Hrun2 as <-.
  rewrite Hrun. exists s', errs.
  rewrite He in He2. apply app_inv_head in He2.
  repeat split; done.
Qed.

(** Two filters whose removal fails on the node: two records, no
    exception, no filter left. *)
Lemma stop_listening_logs_failures :
  let f := mk_filter_info (mk_filter "0x1") Samples.usdc
             (EventConfig.mk "Transfer" EventSignatures.ERC20_TRANSFER [] true) in
  stop_listening Samples.failing_node
    (mk [Samples.usdc] (EventBus.new "EthereumEventBus") true [f; f])
    (mk_sys tt [] [] [])
  = (Ok (mk [Samples.usdc] (EventBus.new "EthereumEventBus") true []),
     mk_sys tt [] []
       [mk_log "Error uninstalling filter" None (Web3Error "filter not found");
        mk_log "Error uninstalling filter" None (Web3Error "filter not found")]).
Proof. reflexivity. Qed.

(** Subscribing to the watch list leaves one filter; stopping removes
    it; stopping again finds nothing to do. *)
Lemma subscribe_then_stop_twice :
  let fresh := init (EventBus.new "EthereumEventBus") true [Samples.usdc] in
  let s0 := mk_sys tt [] [] [] in
  exists started stopped,
    subscribe_all Samples.quiet_node fresh [Samples.usdc] s0 = (Ok started, s0)
    /\ length (active_filters started) = 1%nat
    /\ stop_listening Samples.quiet_node started s0 = (Ok stopped, s0)
    /\ active_filters stopped = []
    /\ stop_listening Samples.quiet_node stopped s0 = (Ok stopped, s0).
Proof. do 2 eexists. repeat split. Qed.

End ListenerClaims.

(* ===================================================================== *)
(** * Decimal arithmetic                                                 *)
(* ===================================================================== *)

Section DecimalFacts.

Lemma digits_aux_bound fuel n k :
  0 <= n < 10 ^ k -> 1 <= k -> Decimal.digits_aux fuel n <= k.
Proof.
  revert n k. induction fuel as [|f IH]; intros n k Hn Hk; cbn; [lia|].
  destruct (Z.ltb_spec n 10) as [Hlt|Hge]; [lia|].
  assert (Hk2 : 2 <= k).
  { destruct (Z.eq_dec k 1) as [->|]; [|lia]. change (10 ^ 1) with 10 in Hn. lia. }
  specialize (IH (n / 10) (k - 1)).
  assert (0 <= n / 10 < 10 ^ (k - 1)); [|lia].
  split; [apply Z.div_pos; lia|].
  apply Z.div_lt_upper_bound; [lia|].
  rewrite <- Z.pow_succ_r by lia. replace (Z.succ (k - 1)) with k by lia. lia.
Qed.

(** [ndigits] counts the decimal digits: the recursion is given enough
    steps for every coefficient. *)
Lemma digits_aux_spec fuel n :
  0 < n < 2 ^ (Z.of_nat fuel + 1) ->
  10 ^ (Decimal.digits_aux fuel n - 1) <= n < 10 ^ Decimal.digits_aux fuel n.
Proof.
  revert n. induction fuel as [|f IH]; intros n Hn.
  - cbn in *. lia.
  - cbn [Decimal.digits_aux]. destruct (Z.ltb_spec n 10) as [Hlt|Hge].
    + cbn. lia.
    + assert (Hpow : 2 ^ (Z.of_nat (S f) + 1) = 2 * 2 ^ (Z.of_nat f + 1)).
      { rewrite Nat2Z.inj_succ.
        replace (Z.succ (Z.of_nat f) + 1) with (Z.succ (Z.of_nat f + 1)) by lia.
        apply Z.pow_succ_r. lia. }
      rewrite Hpow in Hn.
      assert (Hq : 0 < n / 10 < 2 ^ (Z.of_nat f + 1)).
      { split; [apply Z.div_str_pos; lia|].
        apply Z.div_lt_upper_bound; lia. }
      specialize (IH _ Hq).
      set (d := Decimal.digits_aux f (n / 10)) in *.
      assert (Hd : 1 <= d).
      { destruct (Z.le_gt_cases 1 d) as [|Hneg]; [done|].
        destruct IH as [_ IH].
        destruct (Z.eq_dec d 0) as [->|].
        - change (10 ^ 0) with 1 in IH. lia.
        - rewrite Z.pow_neg_r in IH by lia. lia. }
      replace (1 + d - 1) with (Z.succ (d - 1)) by lia.
      replace (1 + d) with (Z.succ d) by lia.
      rewrite !Z.pow_succ_r by lia.
      pose proof (Z.div_mod n 10 ltac:(lia)) as Hdm.
      pose proof (Z.mod_pos_bound n 10 ltac:(lia)) as Hm.
      lia.
Qed.

Lemma ndigits_spec n :
  0 < n -> 10 ^ (Decimal.ndigits n - 1) <= n < 10 ^ Decimal.ndigits n.
Proof.
  intros Hn. apply digits_aux_spec. split; [done|].
  rewrite Z2Nat.id by apply Z.log2_nonneg.
  replace (Z.log2 n + 1) with (Z.succ (Z.log2 n)) by lia.
  by apply Z.log2_spec.
Qed.

Lemma ndigits_bound n : 0 <= n < 10 ^ Decimal.prec -> Decimal.ndigits n <= Decimal.prec.
Proof. intros Hn. apply digits_aux_bound; [done | unfold Decimal.prec; lia]. Qed.

(** Below the precision of the context the sum of two integers is
    exact. *)
Lemma add_exact (a b : Z) :
  0 <= a -> 0 <= b -> a + b < 10 ^ Decimal.prec ->
  Decimal.add (Decimal.of_int a) (Decimal.of_int b) = Decimal.of_int (a + b).
Proof.
  intros Ha Hb Hsum. unfold Decimal.add, Decimal.of_int, Decimal.fix_.
  cbn [Decimal.coeff Decimal.exp]. change (Z.min 0 0) with 0.
  change (0 - 0) with 0. change (10 ^ 0) with 1. rewrite !Z.mul_1_r.
  pose proof (ndigits_bound (a + b) ltac:(lia)) as Hd.
  destruct (Z.leb_spec (Decimal.ndigits (a + b)) Decimal.prec); [done | lia].
Qed.

Lemma value_of_int n : Decimal.value (Decimal.of_int n) = n.
Proof. unfold Decimal.value, Decimal.of_int. cbn. lia. Qed.

End DecimalFacts.

(* ===================================================================== *)
(** * The batch transformer                                              *)
(* ===================================================================== *)

Section TransformerFacts.
Import DataTransformer.
Variable clock : Z -> result string.

Lemma hex_value_nonneg c d : hex_value c = Some d -> 0 <= d.
Proof.
  unfold hex_value. intros H.
  repeat match type of H with
         | (if ?b then _ else _) = _ => destruct b eqn:?
         end; simplify_eq; lia.
Qed.

Lemma int16_digits_nonneg s acc v :
  int16_digits acc s = Some v -> 0 <= acc -> 0 <= v.
Proof.
  revert acc. induction s as [|c s IH]; intros acc H Hacc; cbn in H.
  - by simplify_eq.
  - destruct (hex_value c) as [d|] eqn:Hd; [|done].
    apply hex_value_nonneg in Hd. apply (IH _ H). lia.
Qed.

Lemma int16_nonneg s v : int16 s = Ok v -> 0 <= v.
Proof.
  unfold int16. destruct (strip_0x s) as [|c r]; [done|].
  destruct (int16_digits 0 (String c r)) as [w|] eqn:E; [|done].
  intros [= <-]. by apply (int16_digits_nonneg _ _ _ E).
Qed.

(** What a successful [_transform_erc20_transfer] returns. *)
Lemma transform_transfer_fields (event : RawEvent.t) (te : TransformedTransfer.t) :
  _transform_erc20_transfer clock event = Ok te ->
  TransformedTransfer.from_address te
  = address_from_topic (default [] (RawEvent.topics event)) 1
  /\ TransformedTransfer.to_address te
     = address_from_topic (default [] (RawEvent.topics event)) 2
  /\ TransformedTransfer.value_decimal te
     = Decimal.of_int (TransformedTransfer.value_int te)
  /\ 0 <= TransformedTransfer.value_int te.
Proof.
  unfold _transform_erc20_transfer.
  set (value_hex := if startswith_0x _ then _ else _).
  destruct (if String.eqb value_hex "0x" then Ok 0 else int16 value_hex)
    as [v|] eqn:Hv; cbn [rbind]; [|done].
  destruct (timestamp_text clock event) as [text|]; cbn [rbind]; [|done].
  intros [= <-]. cbn. repeat split.
  destruct (String.eqb value_hex "0x"); [by simplify_eq | by eapply int16_nonneg].
Qed.

Lemma address_from_topic_missing topics i :
  (length topics <= i)%nat -> address_from_topic topics i = "0x0".
Proof.
  intros Hlen. unfold address_from_topic.
  by rewrite (lookup_ge_None_2 topics i Hlen).
Qed.

Lemma update_summary_spec acc te acc' :
  update_summary acc te = Ok acc' ->
  Running.total_transfers acc' = Running.total_transfers acc + 1
  /\ Running.total_volume acc'
     = Decimal.add (Running.total_volume acc) (TransformedTransfer.value_decimal te)
  /\ Running.unique_addresses acc'
     = Running.unique_addresses acc
         ∪ {[TransformedTransfer.from_address te]}
         ∪ {[TransformedTransfer.to_address te]}.
Proof.
  unfold update_summary.
  destruct (TransformedTransfer.timestamp te); cbn [rbind]; [|done].
  by intros [= <-].
Qed.

(** The loop: every log with the transfer signature yields one
    transformed transfer, in input order, and enters every running
    total. *)
Lemma transform_loop_spec (events : list RawEvent.t)
    (tr tr' : list TransformedTransfer.t) (acc acc' : Running.t) :
  transform_loop clock events tr acc = Ok (tr', acc') ->
  exists new,
    tr' = tr ++ new
    /\ Forall2 (fun e t => _transform_erc20_transfer clock e = Ok t)
         (filter (fun e => _is_erc20_transfer e = true) events) new
    /\ Running.total_transfers acc'
       = Running.total_transfers acc + Z.of_nat (length new)
    /\ Running.total_volume acc'
       = foldl Decimal.add (Running.total_volume acc)
           (TransformedTransfer.value_decimal <$> new)
    /\ Running.unique_addresses acc'
       = Running.unique_addresses acc ∪ list_to_set (addresses_of new).
Proof.
  revert tr acc. induction events as [|e events IH]; intros tr acc Hrun.
  - cbn in Hrun. simplify_eq. exists []. rewrite app_nil_r.
    repeat split; [constructor | cbn; lia | cbn; set_solver].
  - cbn [transform_loop] in Hrun. rewrite filter_cons.
    destruct (_is_erc20_transfer e) eqn:He; cbn [negb] in Hrun.
    + destruct (_transform_erc20_transfer clock e) as [te|] eqn:Hte;
        cbn [rbind] in Hrun; [|done].
      destruct (update_summary acc te) as [acc1|] eqn:Hup;
        cbn [rbind] in Hrun; [|done].
      apply update_summary_spec in Hup as (Hn & Hv & Hu).
      destruct (IH _ _ Hrun) as (new & -> & Hall & Hn' & Hv' & Hu').
      exists (te :: new). rewrite decide_True by done.
      rewrite <- app_assoc. repeat split.
      * by constructor.
      * rewrite Hn', Hn. cbn [length]. lia.
      * rewrite Hv', Hv. done.
      * rewrite Hu', Hu. unfold addresses_of. cbn. set_solver.
    + rewrite decide_False by done. by apply IH.
Qed.

(** ** The stable descending sort *)

Lemma insert_desc_perm x l : insert_desc x l ≡ₚ x :: l.
Proof.
  induction l as [|y l IH]; cbn; [done|].
  destruct (Decimal.ltb _ _); [|done].
  rewrite IH. apply Permutation_swap.
Qed.

Lemma sorted_desc_perm l : sorted_desc l ≡ₚ l.
Proof.
  induction l as [|x l IH]; cbn; [done|].
  fold (sorted_desc l). by rewrite insert_desc_perm, IH.
Qed.

Lemma insert_desc_sorted x l :
  Sorted (fun a b => rank b <= rank a) l ->
  Sorted (fun a b => rank b <= rank a) (insert_desc x l).
Proof.
  induction 1 as [|y l Hl IH Hy]; cbn.
  - repeat constructor.
  - unfold Decimal.ltb. fold (rank x) (rank y).
    destruct (Z.ltb_spec (rank x) (rank y)) as [Hlt|Hge].
    + constructor; [exact IH|].
      destruct Hy as [|z l Hz]; cbn.
      * constructor. lia.
      * unfold Decimal.ltb. fold (rank x) (rank z).
        destruct (Z.ltb_spec (rank x) (rank z)); constructor; lia.
    + constructor; [by constructor | by constructor].
Qed.

Lemma sorted_desc_sorted l : Sorted (fun a b => rank b <= rank a) (sorted_desc l).
Proof.
  induction l as [|x l IH]; cbn; [constructor|].
  fold (sorted_desc l). by apply insert_desc_sorted.
Qed.

(** Ties keep their input order: among the elements of any one rank,
    the sort changes nothing. *)
Lemma insert_desc_stable v x l :
  filter (fun t => rank t = v) (insert_desc x l)
  = filter (fun t => rank t = v) (x :: l).
Proof.
  induction l as [|y l IH]; cbn [insert_desc]; [done|].
  unfold Decimal.ltb. fold (rank x) (rank y).
  destruct (Z.ltb_spec (rank x) (rank y)) as [Hlt|Hge]; [|done].
  rewrite (filter_cons _ y), IH, !filter_cons.
  repeat case_decide; try done; lia.
Qed.

Lemma sorted_desc_stable v l :
  filter (fun t => rank t = v) (sorted_desc l) = filter (fun t => rank t = v) l.
Proof.
  induction l as [|x l IH]; cbn; [done|].
  fold (sorted_desc l). by rewrite insert_desc_stable, !filter_cons, IH.
Qed.

(** ** The aggregates *)

Lemma foldl_add_exact (l : list TransformedTransfer.t) (a : Z) :
  Forall (fun t => TransformedTransfer.value_decimal t
                   = Decimal.of_int (TransformedTransfer.value_int t)
                   /\ 0 <= TransformedTransfer.value_int t) l ->
  0 <= a ->
  a + sum_values l < 10 ^ Decimal.prec ->
  foldl Decimal.add (Decimal.of_int a) (TransformedTransfer.value_decimal <$> l)
  = Decimal.of_int (a + sum_values l).
Proof.
  intros Hall. revert a. induction Hall as [|t l [Hd Ht] Hall IH]; intros a Ha Hsum.
  - cbn. f_equal. unfold sum_values. cbn. lia.
  - assert (Hnn : 0 <= sum_values l).
    { clear -Hall. induction Hall as [|u l [_ Hu] _ IH]; unfold sum_values in *;
        cbn; lia. }
    unfold sum_values in *. cbn in *. rewrite Hd.
    rewrite add_exact by lia. rewrite IH by lia. f_equal. lia.
Qed.

(** The parts of the summary that do not depend on decimal rounding,
    and the total volume when the exact sum fits the precision of the
    context. *)
Lemma erc20_aggregates (events : list RawEvent.t) (r : ERC20Result.t) :
  transform_erc20_events clock events = Ok r ->
  let transfers := ERC20Result.events r in
  let summary := ERC20Result.summary r in
  Forall2 (fun e t => _transform_erc20_transfer clock e = Ok t)
    (filter (fun e => _is_erc20_transfer e = true) events) transfers
  /\ TransferSummary.total_transfers summary = Z.of_nat (length transfers)
  /\ TransferSummary.total_volume summary
     = foldl Decimal.add Decimal.zero
         (TransformedTransfer.value_decimal <$> transfers)
  /\ (sum_values transfers < 10 ^ Decimal.prec ->
      TransferSummary.total_volume summary
      = Decimal.of_int (sum_values transfers))
  /\ TransferSummary.unique_addresses summary
     = size (list_to_set (addresses_of transfers) : gset string)
  /\ TransferSummary.top_transfers summary = take 10 (sorted_desc transfers)
  /\ sorted_desc transfers ≡ₚ transfers
  /\ Sorted (fun a b => rank b <= rank a) (sorted_desc transfers)
  /\ (forall v, filter (fun t => rank t = v) (sorted_desc transfers)
                = filter (fun t => rank t = v) transfers).
Proof.
  unfold transform_erc20_events.
  destruct (transform_loop clock events [] Running.initial) as [[tr acc]|] eqn:Hrun;
    cbn [rbind]; [|done].
  intros [= <-]. cbn [ERC20Result.events ERC20Result.summary fst snd
    TransferSummary.total_transfers TransferSummary.total_volume
    TransferSummary.unique_addresses TransferSummary.top_transfers].
  destruct (transform_loop_spec _ _ _ _ _ Hrun) as (new & Hnew & Hall & Hn & Hv & Hu).
  cbn [app] in Hnew. subst new.
  repeat split.
  - exact Hall.
  - rewrite Hn. cbn. lia.
  - exact Hv.
  - intros Hsum. rewrite Hv. change (Running.total_volume Running.initial)
      with (Decimal.of_int 0).
    rewrite foldl_add_exact; [done| |lia|lia].
    clear -Hall. induction Hall as [|e t es ts Ht _ IH]; constructor; [|done].
    by destruct (transform_transfer_fields _ _ Ht) as (_ & _ & ? & ?).
  - rewrite Hu. f_equal. cbn. set_solver.
  - apply sorted_desc_perm.
  - apply sorted_desc_sorted.
  - intros v. apply sorted_desc_stable.
Qed.

(** ** When the ERC20 loop succeeds *)

Lemma transformed_timestamp (e : RawEvent.t) (te : TransformedTransfer.t) :
  _transform_erc20_transfer clock e = Ok te ->
  match TransformedTransfer.timestamp te with
  | Some _ => true
  | None => false
  end
  = match RawEvent.timestamp e with
    | Some ts => negb (ts =? 0)
    | None => false
    end.
Proof.
  unfold _transform_erc20_transfer.
  match goal with |- context [rbind ?r _] => destruct r; cbn [rbind]; [|done] end.
  unfold timestamp_text.
  destruct (RawEvent.timestamp e) as [ts|]; cbn [rbind].
  - destruct (ts =? 0); cbn [rbind negb].
    + by intros [= <-].
    + destruct (clock ts); cbn [rbind]; [|done]. by intros [= <-].
  - by intros [= <-].
Qed.

Lemma transform_loop_ok (events : list RawEvent.t)
    (tr : list TransformedTransfer.t) (acc : Running.t) :
  is_ok (transform_loop clock events tr acc)
  = forallb (fun e => negb (_is_erc20_transfer e) || transformable clock e) events.
Proof.
  revert tr acc. induction events as [|e events IH]; intros tr acc; [done|].
  cbn [transform_loop forallb]. unfold transformable.
  destruct (_is_erc20_transfer e); cbn [negb orb]; [|apply IH].
  destruct (_transform_erc20_transfer clock e) as [te|] eqn:Hte;
    cbn [rbind is_ok andb]; [|done].
  rewrite <- (transformed_timestamp _ _ Hte).
  unfold update_summary.
  destruct (TransformedTransfer.timestamp te); cbn [rbind is_ok]; [apply IH|done].
Qed.

End TransformerFacts.

(* ===================================================================== *)
(** * Floating-point comparisons                                         *)
(* ===================================================================== *)

Section FloatFacts.

Lemma SFcompare_antisym (a b : spec_float) :
  SFcompare b a = option_map CompOpp (SFcompare a b).
Proof.
  destruct a as [sa|sa| |sa ma ea], b as [sb|sb| |sb mb eb]; cbn;
    try reflexivity;
    try (destruct sa; reflexivity); try (destruct sb; reflexivity);
    try (destruct sa, sb; reflexivity).
  destruct sa, sb; cbn; try reflexivity; f_equal;
    rewrite (Z.compare_antisym ea eb);
    destruct (ea ?= eb)%Z; cbn; try reflexivity;
    change (PosDef.Pos.compare_cont Eq mb ma) with (Pos.compare_cont Eq mb ma);
    change (PosDef.Pos.compare_cont Eq ma mb) with (Pos.compare_cont Eq ma mb);
    rewrite (Pos.compare_cont_antisym ma mb Eq); reflexivity.
Qed.

(** [c <= u] excludes [u < c], also when [u] is not a number. *)
Lemma leb_not_ltb (c u : float) :
  PrimFloat.leb c u = true -> PrimFloat.ltb u c = false.
Proof.
  rewrite leb_spec, ltb_spec. unfold SFleb, SFltb.
  rewrite (SFcompare_antisym (Prim2SF c) (Prim2SF u)).
  by destruct (SFcompare (Prim2SF c) (Prim2SF u)) as [[]|].
Qed.

Lemma SFcompare_lt_trans (a b c : spec_float) :
  SFcompare a b = Some Lt -> SFcompare b c = Some Lt -> SFcompare a c = Some Lt.
Proof.
  destruct a as [[]|[]| |[] ma ea], b as [[]|[]| |[] mb eb],
           c as [[]|[]| |[] mc ec];
    cbn; try discriminate; try reflexivity; intros Hab Hbc;
    injection Hab as Hab; injection Hbc as Hbc; f_equal;
    change (PosDef.Pos.compare_cont Eq) with Pos.compare in *;
    destruct (Z.compare_spec ea eb), (Z.compare_spec eb ec),
             (Z.compare_spec ea ec);
    subst; try discriminate; try lia; try reflexivity; cbn in *;
    destruct (Pos.compare_spec ma mb), (Pos.compare_spec mb mc),
             (Pos.compare_spec ma mc);
    subst; cbn in *; try discriminate; try lia; try reflexivity.
Qed.

Lemma ltb_trans (a b c : float) :
  PrimFloat.ltb a b = true -> PrimFloat.ltb b c = true ->
  PrimFloat.ltb a c = true.
Proof.
  rewrite !ltb_spec. unfold SFltb. intros Hab Hbc.
  rewrite (SFcompare_lt_trans (Prim2SF a) (Prim2SF b) (Prim2SF c)); [done|..].
  - by destruct (SFcompare (Prim2SF a) (Prim2SF b)) as [[]|].
  - by destruct (SFcompare (Prim2SF b) (Prim2SF c)) as [[]|].
Qed.

(** At or above a bound means not below any smaller bound. *)
Lemma leb_above (c d u : float) :
  PrimFloat.ltb c d = true -> PrimFloat.leb d u = true ->
  PrimFloat.ltb u c = false.
Proof.
  intros Hcd Hdu. destruct (PrimFloat.ltb u c) eqn:E; [|done].
  pose proof (ltb_trans u c d E Hcd) as Hud.
  by rewrite (leb_not_ltb d u Hdu) in Hud.
Qed.

End FloatFacts.

(* ===================================================================== *)
(** * C2, C8, C9: the claims about malformed logs and the transformer    *)
(* ===================================================================== *)

Section TransformerClaims.
Import DataTransformer.

(** C2, as claimed, fails: on a [Transfer] log that carries its
    signature only, the live decoder raises an [IndexError] instead
    of returning an error value, and the batch transformer does not
    skip the log: it counts it, with ["0x0"] for both addresses. *)
Lemma short_transfer_raises_and_is_counted :
  EventListenerService._create_erc20_transfer_event Samples.quiet_node
    (Samples.log_with [Samples.transfer_sig] (be_encode 32 5))
    Samples.usdc 1700000000 = Raise IndexError
  /\ exists r,
       transform_erc20_events Samples.frozen_clock [Samples.short_transfer] = Ok r
       /\ TransferSummary.total_transfers (ERC20Result.summary r) = 1
       /\ TransferSummary.unique_addresses (ERC20Result.summary r) = 1%nat
       /\ TransferSummary.total_volume (ERC20Result.summary r) = Decimal.of_int 5
       /\ TransformedTransfer.from_address <$> ERC20Result.events r = ["0x0"]
       /\ TransformedTransfer.to_address <$> ERC20Result.events r = ["0x0"].
Proof.
  split; [reflexivity|].
  eexists. split; [vm_compute; reflexivity|]. repeat split.
Qed.

(** C2, as the code has it.  A [Transfer] log with fewer than three
    topics makes the live decoder raise; [_handle_log_event] catches
    the exception, writes one error record and publishes nothing.
    The batch transformer does not tell such a log from a complete
    one: whether a batch is transformed depends on the payloads and
    the timestamps of its transfer logs, never on their topics; a
    batch that is transformed counts every log with the transfer
    signature, short or not, with the placeholder ["0x0"] for each
    address whose topic is missing; and a batch that is not
    transformed holds a transfer log whose payload or timestamp is
    unusable, for which the transformer raises and returns nothing. *)
Theorem short_transfer_logs_in_both_paths {World : Type}
    (sem : handler_semantics World) (web3 : node World)
    (clock : Z -> result string) (self : EventListenerService.t)
    (pick : nat -> nat) (log : LogReceipt.t) (contract : ContractConfig.t)
    (event_config : EventConfig.t) (sig : bytes) (s : sys World)
    (events : list RawEvent.t) :
  LogReceipt.topics log !! 0%nat = Some sig ->
  hexbytes_hex sig = EventSignatures.ERC20_TRANSFER ->
  (length (LogReceipt.topics log) < 3)%nat ->
  (forall ts, exists e,
      EventListenerService._create_erc20_transfer_event web3 log contract ts = Raise e)
  /\ (exists s' e,
        EventListenerService._handle_log_event sem web3 self pick log contract event_config s
        = (Ok tt, s')
        /\ calls s' = calls s
        /\ finished s' = finished s
        /\ errors s' = errors s ++ [mk_log "Error handling log event" None e])
  /\ is_ok (transform_erc20_events clock events)
     = forallb (fun e => negb (_is_erc20_transfer e) || transformable clock e)
         events
  /\ (forall e topics,
        transformable clock (with_topics topics e) = transformable clock e)
  /\ match transform_erc20_events clock events with
     | Ok r =>
         TransferSummary.total_transfers (ERC20Result.summary r)
         = Z.of_nat (length (filter (fun e => _is_erc20_transfer e = true) events))
         /\ Forall2
              (fun e t =>
                 let topics := default [] (RawEvent.topics e) in
                 ((length topics < 3)%nat ->
                  TransformedTransfer.to_address t = "0x0")
                 /\ ((length topics < 2)%nat ->
                     TransformedTransfer.from_address t = "0x0"))
              (filter (fun e => _is_erc20_transfer e = true) events)
              (ERC20Result.events r)
     | Raise _ =>
         exists e, e ∈ events /\ _is_erc20_transfer e = true
                   /\ transformable clock e = false
     end.
Proof.
  intros Hsig Hhex Hlen.
  assert (Hok : is_ok (transform_erc20_events clock events)
                = forallb (fun e => negb (_is_erc20_transfer e)
                                    || transformable clock e) events).
  { unfold transform_erc20_events.
    rewrite <- (transform_loop_ok clock events [] Running.initial).
    by destruct (transform_loop clock events [] Running.initial). }
  split; [|split; [|split; [|split]]].
  - intros ts. by apply short_transfer_raises.
  - apply handle_undecodable. intros ts.
    by apply (decode_short_transfer web3 log contract event_config ts sig).
  - exact Hok.
  - intros e topics.
    unfold transformable, _transform_erc20_transfer, timestamp_text.
    cbn [with_topics RawEvent.data RawEvent.timestamp].
    destruct (if String.eqb _ "0x" then Ok 0 else int16 _) as [v|];
      cbn [rbind is_ok]; [|done].
    by destruct (RawEvent.timestamp e) as [ts|];
      [destruct (ts =? 0); [|destruct (clock ts)]|].
  - destruct (transform_erc20_events clock events) as [r|err] eqn:Hrun.
    + destruct (erc20_aggregates clock events r Hrun) as (Hall & Hn & _).
      split.
      * rewrite Hn. f_equal. symmetry. by eapply Forall2_length.
      * eapply Forall2_impl; [exact Hall|]. intros e t Ht. cbn zeta.
        destruct (transform_transfer_fields clock e t Ht) as (-> & -> & _).
        split; intros ?; apply address_from_topic_missing; lia.
    + cbn [is_ok] in Hok. symmetry in Hok.
      assert (Hex : exists e, In e events
                /\ negb (_is_erc20_transfer e) || transformable clock e = false).
      { clear -Hok. induction events as [|a l IH]; [discriminate|].
        cbn [forallb] in Hok. apply andb_false_iff in Hok as [Ha|Hl].
        - exists a. split; [by left|done].
        - destruct (IH Hl) as (e & Hin & He). exists e. split; [by right|done]. }
      destruct Hex as (e & Hin & Hbad). exists e.
      apply orb_false_iff in Hbad as [Htr Hbad].
      apply negb_false_iff in Htr. by rewrite list_elem_of_In.
Qed.

Lemma short_transfer_logs_in_both_paths_witness :
  is_ok (transform_erc20_events Samples.frozen_clock
           [Samples.transfer_of 7; Samples.short_transfer; Samples.transfer_of 9])
  = forallb (fun e => negb (_is_erc20_transfer e)
                      || transformable Samples.frozen_clock e)
      [Samples.transfer_of 7; Samples.short_transfer; Samples.transfer_of 9]
  /\ exists r,
       transform_erc20_events Samples.frozen_clock
         [Samples.transfer_of 7; Samples.short_transfer; Samples.transfer_of 9]
       = Ok r
       /\ TransferSummary.total_transfers (ERC20Result.summary r) = 3.
Proof.
  destruct (short_transfer_logs_in_both_paths Samples.journal_semantics
              Samples.journal_node
              Samples.frozen_clock
              (EventListenerService.init (EventBus.new "EthereumEventBus")
                 true [Samples.usdc])
              Samples.round_robin
              (Samples.log_with [Samples.transfer_sig] (be_encode 32 5))
              Samples.usdc
              (EventConfig.mk "Transfer" EventSignatures.ERC20_TRANSFER [] true)
              Samples.transfer_sig Samples.quiet
              [Samples.transfer_of 7; Samples.short_transfer;
               Samples.transfer_of 9])
    as (_ & _ & Hok & _ & Hrun);
    [reflexivity | reflexivity | cbn; lia |].
  split; [exact Hok|].
  destruct (transform_erc20_events Samples.frozen_clock
              [Samples.transfer_of 7; Samples.short_transfer;
               Samples.transfer_of 9]) as [r|] eqn:E;
    [|vm_compute in E; discriminate E].
  exists r. split; [reflexivity|]. destruct Hrun as [Hn _]. exact Hn.
Defined.

(** A short transfer log in a batch that is not transformed, and the
    reason: its neighbour has no timestamp.  With the timestamp in
    place the same batch is transformed, the short log included. *)
Lemma short_transfer_beside_a_log_without_timestamp :
  transform_erc20_events Samples.frozen_clock
    [Samples.short_transfer;
     Samples.raw_with
       (hexbytes_hex <$> [Samples.transfer_sig; pad20 Samples.alice;
                          pad20 Samples.bob])
       (hexbytes_hex (be_encode 32 4)) None]
  = Raise TypeError
  /\ transformable Samples.frozen_clock Samples.short_transfer = true
  /\ is_ok (transform_erc20_events Samples.frozen_clock
              [Samples.short_transfer; Samples.transfer_of 4]) = true
  /\ transform_erc20_events Samples.frozen_clock
       [Samples.raw_with [hexbytes_hex Samples.transfer_sig] "0xzz"
          (Some 1700000000)]
     = Raise ValueError.
Proof. repeat split; vm_compute; reflexivity. Qed.

(** C8 (the code departs from it).  [total_volume] is the sum under
    the default decimal context, which keeps 28 significant digits:
    two transfers of [10^28] and [1] units are decoded exactly, and
    summed to [10^28], one unit short of the exact sum.  The count of
    distinct addresses and the ranking are as claimed. *)
Theorem total_volume_is_rounded_to_28_digits :
  exists r,
    transform_erc20_events Samples.frozen_clock
      [Samples.transfer_of (10 ^ 28); Samples.transfer_of 1] = Ok r
    /\ TransformedTransfer.value_int <$> ERC20Result.events r = [10 ^ 28; 1]
    /\ sum_values (ERC20Result.events r) = 10 ^ 28 + 1
    /\ TransferSummary.total_volume (ERC20Result.summary r)
       = Decimal.mk (10 ^ 27) 1
    /\ Decimal.value (TransferSummary.total_volume (ERC20Result.summary r))
       = 10 ^ 28
    /\ TransferSummary.unique_addresses (ERC20Result.summary r) = 2%nat
    /\ TransformedTransfer.value_int <$>
         TransferSummary.top_transfers (ERC20Result.summary r) = [10 ^ 28; 1].
Proof.
  eexists. split; [vm_compute; reflexivity|]. repeat split.
Qed.

(** The values are decoded exactly; for ten transfers below the
    precision of the context the total is exact too. *)
Lemma total_volume_exact_on_small_values :
  exists r,
    transform_erc20_events Samples.frozen_clock
      [Samples.transfer_of 3; Samples.transfer_of Samples.big_value;
       Samples.transfer_of 3] = Ok r
    /\ TransferSummary.total_volume (ERC20Result.summary r)
       = Decimal.of_int (Samples.big_value + 6)
    /\ TransformedTransfer.value_int <$>
         TransferSummary.top_transfers (ERC20Result.summary r)
       = [Samples.big_value; 3; 3].
Proof. eexists. split; [vm_compute; reflexivity|]. split; reflexivity. Qed.

(** A transfer log without a timestamp stops the whole batch: the hour
    key is sliced out of [None]. *)
Lemma missing_timestamp_aborts_the_batch :
  transform_erc20_events Samples.frozen_clock
    [Samples.transfer_of 3;
     Samples.raw_with
       (hexbytes_hex <$> [Samples.transfer_sig; pad20 Samples.alice;
                          pad20 Samples.bob])
       (hexbytes_hex (be_encode 32 4)) None]
  = Raise TypeError.
Proof. vm_compute. reflexivity. Qed.

(** C9.  Gas utilization banding.  The status of the utilization the
    transformer computes, [(gasUsed / gasLimit) * 100] in binary
    floating point, is ["low"] below 50, ["moderate"] from 50 and
    below 80, ["high"] from 80 and below 95, ["critical"] from 95; a
    block at exactly half, four fifths and nineteen twentieths of its
    gas limit is at 50, 80 and 95 and classifies as moderate, high
    and critical; and [is_full_block] is set exactly when the
    utilization is above 95. *)
Theorem gas_utilization_banding (u : float) (block_data : BlockData.t) :
  (PrimFloat.ltb u 50 = true -> _get_utilization_status u = "low")
  /\ (PrimFloat.leb 50 u = true -> PrimFloat.ltb u 80 = true ->
      _get_utilization_status u = "moderate")
  /\ (PrimFloat.leb 80 u = true -> PrimFloat.ltb u 95 = true ->
      _get_utilization_status u = "high")
  /\ (PrimFloat.leb 95 u = true -> _get_utilization_status u = "critical")
  /\ (gas_utilization (Samples.block_with 15000000 30000000) = Ok 50%float
      /\ _get_utilization_status 50 = "moderate")
  /\ (gas_utilization (Samples.block_with 24000000 30000000) = Ok 80%float
      /\ _get_utilization_status 80 = "high")
  /\ (gas_utilization (Samples.block_with 28500000 30000000) = Ok 95%float
      /\ _get_utilization_status 95 = "critical")
  /\ match transform_block_data block_data with
     | Ok tb =>
         exists g,
           gas_utilization
             (default RawBlock.empty (BlockData.raw_block_data block_data))
           = Ok g
           /\ NetworkHealth.utilization_status (TransformedBlock.network_health tb)
              = _get_utilization_status g
           /\ NetworkHealth.is_full_block (TransformedBlock.network_health tb)
              = PrimFloat.ltb 95 g
     | Raise e =>
         gas_utilization
           (default RawBlock.empty (BlockData.raw_block_data block_data))
         = Raise e
     end.
Proof.
  repeat split; try reflexivity.
  - unfold _get_utilization_status. by intros ->.
  - intros H50 H80. unfold _get_utilization_status.
    by rewrite (leb_not_ltb _ _ H50), H80.
  - intros H80 H95. unfold _get_utilization_status.
    by rewrite (leb_above 50 80 u eq_refl H80), (leb_not_ltb _ _ H80), H95.
  - intros H95. unfold _get_utilization_status.
    by rewrite (leb_above 50 95 u eq_refl H95), (leb_above 80 95 u eq_refl H95),
      (leb_not_ltb _ _ H95).
  - unfold transform_block_data.
    destruct (gas_utilization _) as [g|e]; cbn [rbind]; [|done].
    exists g. by repeat split.
Qed.

(** Around the bounds: one unit of gas below half the limit is still
    ["low"]; at exactly 95 the block is critical but not full; one unit
    above, it is full. *)
Lemma banding_next_to_the_bounds :
  (_get_utilization_status <$>
     gas_utilization (Samples.block_with 14999999 30000000)) = Ok "low"
  /\ (_get_utilization_status <$>
        gas_utilization (Samples.block_with 23999999 30000000)) = Ok "moderate"
  /\ (_get_utilization_status <$>
        gas_utilization (Samples.block_with 28499999 30000000)) = Ok "high"
  /\ (PrimFloat.ltb 95 <$>
        gas_utilization (Samples.block_with 28500000 30000000)) = Ok false
  /\ (PrimFloat.ltb 95 <$>
        gas_utilization (Samples.block_with 28500001 30000000)) = Ok true
  /\ gas_utilization (Samples.block_with 1 0) = Raise ZeroDivisionError.
Proof. repeat split. Qed.

End TransformerClaims.

(* ===================================================================== *)
(** * Further properties of the event bus                                *)
(* ===================================================================== *)

Section MoreBusFacts.
Import EventBus.







End MoreBusFacts.

Section MoreBusProperties.
Import EventBus.






End MoreBusProperties.

(* ===================================================================== *)
(** * The handler service                                                *)
(* ===================================================================== *)

Section HandlerServiceProperties.
Import EventBus EventHandlerService.






End HandlerServiceProperties.

(* ===================================================================== *)
(** * Further properties of the listener                                 *)
(* ===================================================================== *)

Section MoreListenerFacts.
Import EventBus EventListenerService EventListenerLoop.
Context {World : Type} (sem : handler_semantics World) (web3 : node World).
Variable get_new_entries : string -> World -> result (list LogReceipt.t) * World.












(** ** The subscription phase *)



End MoreListenerFacts.

Section MoreListenerProperties.
Import EventBus EventListenerService EventListenerLoop.









End MoreListenerProperties.

(* ===================================================================== *)
(** * Further properties of the batch transformer                        *)
(* ===================================================================== *)

Section MoreTransformerFacts.
Import DataTransformer Transformer.
Variable clock : Z -> result string.

(** ** Dictionaries in insertion order *)






(** ** Uniswap batches *)


Lemma with_signature_length sig events :
  (length (with_signature sig events) <= length events)%nat.
Proof. apply length_filter. Qed.




End MoreTransformerFacts.

Section MoreTransformerLemmas.
Import DataTransformer Transformer.
Variable clock : Z -> result string.



(** ** The activity table *)






(** ** Whole bundles *)

Lemma Forall2_same_length {A B} (P : A -> B -> Prop) l k :
  Forall2 P l k -> length l = length k.
Proof. apply Forall2_length. Qed.





End MoreTransformerLemmas.

Section MoreTransformerProperties.
Import DataTransformer Transformer.







(** Both failures on blocks, and a block that is transformed. *)
Example transform_block_data_outcomes :
  let block used limit :=
    BlockData.mk
      (Some (RawBlock.mk (Some 1) None None (Some used) limit None None))
      None in
  transform_block_data (block 5 (Some 0)) = Raise ZeroDivisionError
  /\ transform_block_data (block (2 ^ 1024) (Some 1)) = Raise OverflowError
  /\ transform_block_data (block (2 ^ 1024) None) = Raise OverflowError
  /\ is_ok (transform_block_data (block (2 ^ 1024) (Some 2))) = true
  /\ is_ok (transform_block_data (block 15000000 (Some 30000000))) = true.
Proof. repeat split; vm_compute; reflexivity. Qed.




End MoreTransformerProperties.
